(** * PyFME: the Cessna 172 force and moment model

    A shallow embedding of [src/pyfme/aircrafts/cessna_172.py].

    Numbers.  The Python code computes with binary64 floats.  Here every
    float is an exact rational ([Q]) and every arithmetic operation is exact:
    a decimal literal such as [0.148] stands for 148/1000, sums and products
    do not round.  Equalities between computed numbers are stated with [==]
    ([Qeq]).  The one irrational constant of the code, the factor 180/pi of
    [np.rad2deg], is the binary64 value NumPy multiplies by.

    Libraries.  [np.interp] and [scipy.interpolate.RectBivariateSpline] are
    not part of the repository; they are modelled after their documented
    behaviour (modules [NumPy] and [Fitpack]).

    Objects.  A [Cessna172] instance is a record of its attributes; a method
    is a function from the instance to the mutated instance and either a
    raised exception or a returned value. *)

From Stdlib Require Import QArith Lqa.
From stdpp Require Import gmap strings list.

Open Scope Q_scope.

(** ** Rational helpers *)

Definition Qltb (a b : Q) : bool := negb (Qle_bool b a).

(** Three-component vectors ([np.array] of length 3). *)
Definition vec3 : Type := (Q * Q * Q)%type.

Definition vadd (a b : vec3) : vec3 :=
  let '(a1, a2, a3) := a in
  let '(b1, b2, b3) := b in (a1 + b1, a2 + b2, a3 + b3).

Definition vscale (k : Q) (a : vec3) : vec3 :=
  let '(a1, a2, a3) := a in (k * a1, k * a2, k * a3).

Definition veq (a b : vec3) : Prop :=
  let '(a1, a2, a3) := a in
  let '(b1, b2, b3) := b in a1 == b1 /\ a2 == b2 /\ a3 == b3.

(** ** NumPy *)

Module NumPy.

(** [np.rad2deg(x)] is [x * (180.0 / pi)] with the binary64 constant
    0x1.ca5dc1a63c1f8p+5 = 57.29577951308232. *)
Definition rad2deg_factor : Q := 1007958012753983 # 17592186044416.

Definition rad2deg (x : Q) : Q := x * rad2deg_factor.

(** [np.deg2rad(x)] is [x * (pi / 180.0)], binary64 0x1.1df46a2529d39p-6. *)
Definition deg2rad_factor : Q := 5030569068109113 # 288230376151711744.

Definition deg2rad (x : Q) : Q := x * deg2rad_factor.

(** [np.interp(x, xp, fp)] with the default [left = fp[0]] and
    [right = fp[-1]].  [interp_from x x0 y0 rest] is the search to the right
    of the sample [(x0, y0)], entered with [x0 <= x]: it stops in the first
    interval [x0 <= x < x1]; there a query on the sample returns the sample
    value, any other is on the chord through the two samples.  Past the
    last sample the last value is returned. *)
Fixpoint interp_from (x x0 y0 : Q) (rest : list (Q * Q)) : Q :=
  match rest with
  | [] => y0
  | (x1, y1) :: rest' =>
      if Qltb x x1 then
        if Qeq_bool x0 x then y0
        else (y1 - y0) / (x1 - x0) * (x - x0) + y0
      else interp_from x x1 y1 rest'
  end.

(** NumPy raises [ValueError] for an empty [xp]; the tables of this file are
    non-empty literals, and the model returns [0] in that unreachable case. *)
Definition interp (x : Q) (xp fp : list Q) : Q :=
  match combine xp fp with
  | [] => 0
  | (x0, y0) :: rest => if Qltb x x0 then y0 else interp_from x x0 y0 rest
  end.

(** The grid of a table is strictly increasing. *)
Fixpoint increasing_from (x0 : Q) (xs : list Q) : Prop :=
  match xs with
  | [] => True
  | x1 :: xs' => x0 < x1 /\ increasing_from x1 xs'
  end.

Definition increasing (xs : list Q) : Prop :=
  match xs with
  | [] => True
  | x0 :: xs' => increasing_from x0 xs'
  end.

End NumPy.

(** ** SciPy: [RectBivariateSpline] over FITPACK

    [RectBivariateSpline(x, y, z)] with its defaults ([kx = ky = 3],
    [s = 0], the bounding box of the data) fits the tensor-product cubic
    spline that interpolates [z] on the grid [x] times [y] (FITPACK
    [regrid]); calling the object evaluates it with FITPACK [bispev].
    FITPACK solves the interpolation equations in floating point; here they
    are solved exactly.  [Qred] only normalises fractions. *)

Module Fitpack.

Definition dot (a b : list Q) : Q :=
  fold_right (fun '(ai, bi) acc => Qred (ai * bi + acc)) 0 (combine a b).

Definition window {A : Type} (start len : nat) (l : list A) : list A :=
  firstn len (skipn start l).

(** The knots of the interpolating spline of odd degree [k] on the sites
    [x]: the first and the last site [k + 1] times, and between them the
    sites [x[(k+1)/2]], ..., [x[m - 1 - (k+1)/2]]. *)
Definition knots (k : nat) (x : list Q) : list Q :=
  repeat (hd 0 x) (S k)
  ++ window (S k / 2) (length x - S k) x
  ++ repeat (List.last x 0) (S k).

(** [fpbisp]'s search of the knot interval [t[l] <= arg < t[l+1]], from
    [l = k] up to the last interval [l = n - k - 2]. *)
Fixpoint search (t : list Q) (arg : Q) (l steps : nat) : nat :=
  match steps with
  | O => l
  | S steps' =>
      if Qltb arg (nth (S l) t 0) then l else search t arg (S l) steps'
  end.

Definition interval (t : list Q) (k : nat) (arg : Q) : nat :=
  search t arg k (length t - 2 * k - 2).

(** [fpbspl]: the [k + 1] B-splines of degree [k] that are non-zero on the
    interval [l], by the de Boor-Cox recurrence.  [fpbspl_row] is one pass
    of the inner loop, raising the degree from [j - 1] to [j]. *)
Fixpoint fpbspl_row (t : list Q) (x : Q) (l j i : nat) (hh : list Q)
    (carry : Q) : list Q :=
  match hh with
  | [] => [carry]
  | hi :: hh' =>
      let tli := nth (l + i) t 0 in
      let tlj := nth (l + i - j) t 0 in
      let f := hi / (tli - tlj) in
      Qred (carry + f * (tli - x))
        :: fpbspl_row t x l j (S i) hh' (Qred (f * (x - tlj)))
  end.

Fixpoint fpbspl (t : list Q) (k : nat) (x : Q) (l : nat) : list Q :=
  match k with
  | O => [1]
  | S k' => fpbspl_row t x l k 1 (fpbspl t k' x l) 0
  end.

(** [fpbisp] moves an argument outside the knot span to its nearest end. *)
Definition clamp (lo hi x : Q) : Q :=
  if Qltb x lo then lo else if Qltb hi x then hi else x.

Record spline : Type := mk_spline {
  tx : list Q;
  ty : list Q;
  coef : list (list Q);
  kx : nat;
  ky : nat
}.

Definition tb (t : list Q) (k : nat) : Q := nth k t 0.
Definition te (t : list Q) (k : nat) : Q := nth (length t - k - 1) t 0.

(** The spline at arguments inside the knot span. *)
Definition fpbisp_at (s : spline) (argx argy : Q) : Q :=
  let lx := interval (tx s) (kx s) argx in
  let ly := interval (ty s) (ky s) argy in
  let hx := fpbspl (tx s) (kx s) argx lx in
  let hy := fpbspl (ty s) (ky s) argy ly in
  dot hx (map (fun row => dot (window (ly - ky s) (S (ky s)) row) hy)
              (window (lx - kx s) (S (kx s)) (coef s))).

(** [bispev] at one point [(x, y)]. *)
Definition bispev (s : spline) (x y : Q) : Q :=
  fpbisp_at s (clamp (tb (tx s) (kx s)) (te (tx s) (kx s)) x)
              (clamp (tb (ty s) (ky s)) (te (ty s) (ky s)) y).

(** The interpolation equations: row [i] of the collocation matrix holds
    the B-splines at the site [x[i]]. *)
Definition colloc_row (t : list Q) (k m : nat) (xi : Q) : list Q :=
  let l := interval t k xi in
  repeat 0 (l - k) ++ fpbspl t k xi l ++ repeat 0 (m - l - 1).

Definition colloc (t : list Q) (k : nat) (x : list Q) : list (list Q) :=
  map (colloc_row t k (length x)) x.

(** Gaussian elimination on rows [(coefficients, right-hand sides)]. *)
Definition axpy (a : Q) (x y : list Q) : list Q :=
  map (fun '(xi, yi) => Qred (yi - a * xi)) (combine x y).

Fixpoint pick (rows seen : list (list Q * list Q))
  : option (Q * list Q * list Q * list (list Q * list Q)) :=
  match rows with
  | [] => None
  | ([], b) :: rows' => pick rows' seen
  | (a :: r, b) :: rows' =>
      if Qeq_bool a 0 then pick rows' (seen ++ [(a :: r, b)])
      else Some (a, r, b, seen ++ rows')
  end.

Fixpoint solve_rows (n : nat) (rows : list (list Q * list Q))
  : list (list Q) :=
  match n with
  | O => []
  | S n' =>
      match pick rows [] with
      | None => []
      | Some (a, r, b, others) =>
          let r' := map (fun v => Qred (v / a)) r in
          let b' := map (fun v => Qred (v / a)) b in
          let reduce := fun '(row, d) =>
            match row with
            | [] => ([], d)
            | c0 :: cs => (axpy c0 r' cs, axpy c0 b' d)
            end in
          let X := solve_rows n' (map reduce others) in
          fold_left (fun acc '(rj, Xj) => axpy rj Xj acc) (combine r' X) b'
            :: X
      end
  end.

(** [solve A B] is the matrix [X] with [A X = B]. *)
Definition solve (A B : list (list Q)) : list (list Q) :=
  solve_rows (length A) (combine A B).

Fixpoint transpose (n : nat) (M : list (list Q)) : list (list Q) :=
  match n with
  | O => []
  | S n' => map (hd 0) M :: transpose n' (map (@tl Q) M)
  end.

(** The fit: the coefficients [C] with [A_x C A_y^T = z]. *)
Definition RectBivariateSpline (x y : list Q) (z : list (list Q)) : spline :=
  let k := 3%nat in
  let t_x := knots k x in
  let t_y := knots k y in
  let W := solve (colloc t_x k x) z in
  let Ct := solve (colloc t_y k y) (transpose (length y) W) in
  mk_spline t_x t_y (transpose (length x) Ct) k k.

End Fitpack.

(** ** Python: exceptions and methods

    A method of an object of type [S] that returns an [A] either raises or
    returns, and leaves the object as mutated so far in both cases. *)

Module Py.

Inductive exn : Type :=
| KeyError (key : string)
| AttributeError (name : string)
| ZeroDivisionError.

Definition M (S A : Type) : Type := S -> S * (exn + A).

Definition ret {S A : Type} (a : A) : M S A := fun s => (s, inr a).

Definition raise {S A : Type} (e : exn) : M S A := fun s => (s, inl e).

Definition bind {S A B : Type} (m : M S A) (k : A -> M S B) : M S B :=
  fun s =>
    match m s with
    | (s', inr a) => k a s'
    | (s', inl e) => (s', inl e)
    end.

Definition get {S : Type} : M S S := fun s => (s, inr s).

Definition modify {S : Type} (f : S -> S) : M S unit :=
  fun s => (f s, inr tt).

(** [d[key]] *)
Definition getitem {S : Type} (d : gmap string Q) (key : string) : M S Q :=
  match d !! key with
  | Some v => ret v
  | None => raise (KeyError key)
  end.

(** Reading an attribute that may not have been assigned yet. *)
Definition getattr {S : Type} (name : string) (v : option Q) : M S Q :=
  match v with
  | Some x => ret x
  | None => raise (AttributeError name)
  end.

(** [a / b] on Python numbers, which is what [__init__] assigns to the
    attributes: a zero divisor raises.  (On NumPy floats the same division
    gives an infinity or a NaN and a warning; that is outside the rational
    model.) *)
Definition truediv {S : Type} (a b : Q) : M S Q :=
  if Qeq_bool b 0 then raise ZeroDivisionError else ret (a / b).

(** The method [m] maintains the property [P] of the object, whether it
    raises or returns. *)
Definition preserves {S A : Type} (P : S -> Prop) (m : M S A) : Prop :=
  forall s, P s -> P (fst (m s)).

End Py.

Notation "'let!' x := m 'in' k" := (Py.bind m (fun x => k))
  (at level 10, x pattern, m at level 100, k at level 200, only parsing).
Notation "'do!' m 'in' k" := (Py.bind m (fun _ => k))
  (at level 10, m at level 100, k at level 200, only parsing).

(** ** The class [Cessna172] *)

Module Cessna172.

Import NumPy Fitpack Py.

(** *** Aerodynamic data

    The tables are assigned once by [__init__] and no method assigns them
    again; they are constants here.  Angles are in degrees. *)

Definition alpha_data : list Q :=
  [-7.5; -5; -2.5; 0; 2.5; 5; 7.5; 10; 15; 17; 18; 19.5].

Definition delta_elev_data : list Q :=
  [-26; -20; -10; -5; 0; 7.5; 15; 22.5; 28].

Definition delta_aile_data : list Q :=
  [-15; -10; -5; -2.5; 0; 5; 10; 15; 20].

Definition CD_data : list Q :=
  [0.044; 0.034; 0.03; 0.03; 0.036; 0.048; 0.067; 0.093; 0.15; 0.169;
   0.177; 0.184].

Definition CD_delta_elev_data : list (list Q) :=
  [ [0.0135; 0.0119; 0.0102; 0.00846; 0.0067; 0.0049; 0.00309; 0.00117;
     -0.0033; -0.00541; -0.00656; -0.00838];
    [0.0121; 0.0106; 0.00902; 0.00738; 0.00574; 0.00406; 0.00238;
     0.00059; -0.00358; -0.00555; -0.00661; -0.00831];
    [0.00651; 0.00552; 0.00447; 0.00338; 0.00229; 0.00117; 0.0000517;
     -0.00114; -0.00391; -0.00522; -0.00593; -0.00706];
    [0.00249; 0.002; 0.00147; 0.000931; 0.000384; -0.000174; -0.000735;
     -0.00133; -0.00272; -0.00337; -0.00373; -0.00429];
    [0; 0; 0; 0; 0; 0; 0; 0; 0; 0; 0; 0];
    [-0.00089; -0.00015; 0.00064; 0.00146; 0.00228; 0.00311; 0.00395;
     0.00485; 0.00693; 0.00791; 0.00844; 0.00929];
    [0.00121; 0.00261; 0.00411; 0.00566; 0.00721; 0.00879; 0.0104;
     0.0121; 0.016; 0.0179; 0.0189; 0.0205];
    [0.00174; 0.00323; 0.00483; 0.00648; 0.00814; 0.00983; 0.0115;
     0.0133; 0.0175; 0.0195; 0.0206; 0.0223];
    [0.00273; 0.00438; 0.00614; 0.00796; 0.0098; 0.0117; 0.0135; 0.0155;
     0.0202; 0.0224; 0.0236; 0.0255] ].

Definition CL_data : list Q :=
  [-0.571; -0.321; -0.083; 0.148; 0.392; 0.65; 0.918; 1.195; 1.659;
   1.789; 1.84; 1.889].

Definition CL_alphadot_data : list Q :=
  [2.434; 2.362; 2.253; 2.209; 2.178; 2.149; 2.069; 1.855; 1.185; 0.8333;
   0.6394; 0.4971].

Definition CL_q_data : list Q :=
  [7.282; 7.282; 7.282; 7.282; 7.282; 7.282; 7.282; 7.282; 7.282; 7.282;
   7.282; 7.282].

Definition CL_delta_elev_data : list Q :=
  [-0.132; -0.123; -0.082; -0.041; 0; 0.061; 0.116; 0.124; 0.137].

Definition CY_beta_data : list Q :=
  [-0.268; -0.268; -0.268; -0.268; -0.268; -0.268; -0.268; -0.268;
   -0.268; -0.268; -0.268; -0.268].

Definition CY_p_data : list Q :=
  [-0.032; -0.0372; -0.0418; -0.0463; -0.051; -0.0563; -0.0617; -0.068;
   -0.0783; -0.0812; -0.0824; -0.083].

Definition CY_r_data : list Q :=
  [0.2018; 0.2054; 0.2087; 0.2115; 0.2139; 0.2159; 0.2175; 0.2187;
   0.2198; 0.2198; 0.2196; 0.2194].

Definition CY_delta_rud_data : list Q :=
  map (Qmult (-1))
   [0.561; 0.561; 0.561; 0.561; 0.561; 0.561; 0.561; 0.561; 0.561; 0.561;
   0.561; 0.561].

Definition Cl_beta_data : list Q :=
  [-0.178; -0.186; -0.1943; -0.202; -0.2103; -0.219; -0.2283; -0.2376;
   -0.2516; -0.255; -0.256; -0.257].

Definition Cl_p_data : list Q :=
  [-0.4968; -0.4678; -0.4489; -0.4595; 0.487; -0.5085; -0.5231; -0.4916;
   -0.301; -0.203; -0.1498; -0.0671].

Definition Cl_r_data : list Q :=
  [-0.09675; -0.05245; -0.01087; 0.02986; 0.07342; 0.1193; 0.1667;
   0.2152; 0.2909; 0.3086; 0.3146; 0.3197].

Definition Cl_delta_rud_data : list Q :=
  map (Qmult (-1))
   [0.091; 0.082; 0.072; 0.063; 0.053; 0.0432; 0.0333; 0.0233; 0.0033;
   -0.005; -0.009; -0.015].

Definition Cl_delta_aile_data : list Q :=
  [-0.078052; -0.059926; -0.036422; -0.018211; 0; 0.018211; 0.036422;
   0.059926; 0.078052].

Definition CM_data : list Q :=
  [0.0597; 0.0498; 0.0314; 0.0075; -0.0248; 0.068; -0.1227; -0.1927;
   -0.3779; -0.4605; -0.5043; -0.5496].

Definition CM_q_data : list Q :=
  [-6.232; -6.232; -6.232; -6.232; -6.232; -6.232; -6.232; -6.232;
   -6.232; -6.232; -6.232; -6.232].

Definition CM_alphadot_data : list Q :=
  [-6.64; -6.441; -6.146; -6.025; -5.942; -5.861; -5.644; -5.059; -3.233;
   -2.273; -1.744; -1.356].

Definition CM_delta_elev_data : list Q :=
  [0.3302; 0.3065; 0.2014; 0.1007; -0.0002; -0.1511; -0.2863; -0.3109;
   -0.345].

Definition CN_beta_data : list Q :=
  [0.0126; 0.0126; 0.0126; 0.0126; 0.0126; 0.0126; 0.0126; 0.0126;
   0.0126; 0.0126; 0.0126; 0.0126].

Definition CN_p_data : list Q :=
  [0.03; 0.016; 0.00262; -0.0108; -0.0245; -0.0385; -0.0528; -0.0708;
   -0.113; -0.1284; -0.1356; -0.1422].

Definition CN_r_data : list Q :=
  [-0.028; -0.027; -0.027; -0.0275; -0.0293; -0.0325; -0.037; -0.043;
   -0.05484; -0.058; -0.0592; -0.06015].

Definition CN_delta_rud_data : list Q :=
  map (Qmult (-1))
   [-0.211; -0.215; -0.218; -0.22; -0.224; -0.226; -0.228; -0.229; -0.23;
   -0.23; -0.23; -0.23].

Definition CN_delta_aile_data : list (list Q) :=
  [ [-0.004321; -0.002238; -0.0002783; 0.001645; 0.003699; 0.005861;
     0.008099; 0.01038; 0.01397; 0.01483; 0.01512; 0.01539];
    [-0.003318; -0.001718; -0.0002137; 0.001263; 0.00284; 0.0045;
     0.006218; 0.00797; 0.01072; 0.01138; 0.01161; 0.01181];
    [-0.002016; -0.001044; -0.000123; 0.0007675; 0.00173; 0.002735;
     0.0038; 0.004844; 0.00652; 0.00692; 0.00706; 0.0072];
    [-0.00101; -0.000522; -0.0000649; 0.000384; 0.000863; 0.00137;
     0.0019; 0.00242; 0.00326; 0.00346; 0.00353; 0.0036];
    [0.0; 0.0; 0.0; 0.0; 0.0; 0.0; 0.0; 0.0; 0.0; 0.0; 0.0; 0.0];
    [0.00101; 0.00052; 0.000065; -0.000384; -0.00086; -0.0014; -0.002;
     -0.002422; -0.00326; -0.00346; -0.00353; -0.0036];
    [0.00202; 0.001044; 0.00013; -0.0008; -0.00173; -0.002735; -0.0038;
     -0.004844; -0.00652; -0.00692; -0.00706; -0.0072];
    [0.00332; 0.00172; 0.000214; -0.001263; -0.00284; -0.0045; -0.00622;
     -0.008; -0.01072; -0.01138; -0.01161; -0.01181];
    [0.004321; 0.00224; 0.00028; -0.001645; -0.0037; -0.00586; -0.0081;
     -0.0104; -0.014; -0.01483; -0.01512; -0.0154] ].

(** *** The instance

    The attributes in the order [__init__] assigns them.  [CM] and [CN] are
    not assigned by [__init__]: they exist once a coefficient routine has
    assigned them. *)

Record t : Type := mk {
  mass : Q;
  inertia : list (list Q);
  Sw : Q;
  chord : Q;
  span : Q;
  controls : gmap string Q;
  control_limits : gmap string (Q * Q);
  CL : Q;
  CD : Q;
  Cm : Q;
  CY : Q;
  Cl : Q;
  Cn : Q;
  Ct : Q;
  gravity_force : vec3;
  total_forces : vec3;
  total_moments : vec3;
  load_factor : Q;
  TAS : Q;
  CAS : Q;
  EAS : Q;
  Mach : Q;
  q_inf : Q;
  p : Q;
  q : Q;
  r : Q;
  alpha : Q;
  beta : Q;
  alpha_dot : Q;
  CM : option Q;
  CN : option Q
}.

(** [__init__].  The unit conversions [ft2m], [lbs2kg] and [slugft2_2_kgm2]
    are imported from [pyfme.models.constants], which is not among the
    sources: they are arguments here. *)
Definition __init__ (ft2m lbs2kg slugft2_2_kgm2 : Q) : t :=
  {| mass := 2300 * lbs2kg;
     inertia := [ [948 * slugft2_2_kgm2; 0 * slugft2_2_kgm2;
                   0 * slugft2_2_kgm2];
                  [0 * slugft2_2_kgm2; 1346 * slugft2_2_kgm2;
                   0 * slugft2_2_kgm2];
                  [0 * slugft2_2_kgm2; 0 * slugft2_2_kgm2;
                   1967 * slugft2_2_kgm2] ];
     Sw := 174 * (ft2m * ft2m);
     chord := 4.9 * ft2m;
     span := 35.8 * ft2m;
     controls := <["delta_elevator" := 0]>
                   (<["delta_aileron" := 0]>
                      (<["delta_rudder" := 0]> ∅));
     control_limits :=
       <["delta_elevator" := (deg2rad (-26), deg2rad 28)]>
         (<["delta_aileron" := (deg2rad (-15), deg2rad 20)]>
            (<["delta_rudder" := (deg2rad (-16), deg2rad 16)]>
               (<["delta_t" := (0, 1)]> ∅)));
     CL := 0; CD := 0; Cm := 0;
     CY := 0; Cl := 0; Cn := 0;
     Ct := 0;
     gravity_force := (0, 0, 0);
     total_forces := (0, 0, 0);
     total_moments := (0, 0, 0);
     load_factor := 0;
     TAS := 0; CAS := 0; EAS := 0; Mach := 0;
     q_inf := 0;
     p := 0; q := 0; r := 0;
     alpha := 0; beta := 0; alpha_dot := 0;
     CM := None; CN := None |}.

(** [self.CL = v] *)
Definition set_CL (v : Q) (self : t) : t :=
  {| mass := mass self; inertia := inertia self; Sw := Sw self;
     chord := chord self; span := span self; controls := controls self;
     control_limits := control_limits self; CL := v; CD := CD self;
     Cm := Cm self; CY := CY self; Cl := Cl self; Cn := Cn self;
     Ct := Ct self; gravity_force := gravity_force self;
     total_forces := total_forces self; total_moments := total_moments self;
     load_factor := load_factor self; TAS := TAS self; CAS := CAS self;
     EAS := EAS self; Mach := Mach self; q_inf := q_inf self; p := p self;
     q := q self; r := r self; alpha := alpha self; beta := beta self;
     alpha_dot := alpha_dot self; CM := CM self; CN := CN self |}.

(** [self.CD = v] *)
Definition set_CD (v : Q) (self : t) : t :=
  {| mass := mass self; inertia := inertia self; Sw := Sw self;
     chord := chord self; span := span self; controls := controls self;
     control_limits := control_limits self; CL := CL self; CD := v;
     Cm := Cm self; CY := CY self; Cl := Cl self; Cn := Cn self;
     Ct := Ct self; gravity_force := gravity_force self;
     total_forces := total_forces self; total_moments := total_moments self;
     load_factor := load_factor self; TAS := TAS self; CAS := CAS self;
     EAS := EAS self; Mach := Mach self; q_inf := q_inf self; p := p self;
     q := q self; r := r self; alpha := alpha self; beta := beta self;
     alpha_dot := alpha_dot self; CM := CM self; CN := CN self |}.

(** [self.CM = v] *)
Definition set_CM (v : Q) (self : t) : t :=
  {| mass := mass self; inertia := inertia self; Sw := Sw self;
     chord := chord self; span := span self; controls := controls self;
     control_limits := control_limits self; CL := CL self; CD := CD self;
     Cm := Cm self; CY := CY self; Cl := Cl self; Cn := Cn self;
     Ct := Ct self; gravity_force := gravity_force self;
     total_forces := total_forces self; total_moments := total_moments self;
     load_factor := load_factor self; TAS := TAS self; CAS := CAS self;
     EAS := EAS self; Mach := Mach self; q_inf := q_inf self; p := p self;
     q := q self; r := r self; alpha := alpha self; beta := beta self;
     alpha_dot := alpha_dot self; CM := Some v; CN := CN self |}.

(** [self.CY = v] *)
Definition set_CY (v : Q) (self : t) : t :=
  {| mass := mass self; inertia := inertia self; Sw := Sw self;
     chord := chord self; span := span self; controls := controls self;
     control_limits := control_limits self; CL := CL self; CD := CD self;
     Cm := Cm self; CY := v; Cl := Cl self; Cn := Cn self; Ct := Ct self;
     gravity_force := gravity_force self; total_forces := total_forces self;
     total_moments := total_moments self; load_factor := load_factor self;
     TAS := TAS self; CAS := CAS self; EAS := EAS self; Mach := Mach self;
     q_inf := q_inf self; p := p self; q := q self; r := r self;
     alpha := alpha self; beta := beta self; alpha_dot := alpha_dot self;
     CM := CM self; CN := CN self |}.

(** [self.Cl = v] *)
Definition set_Cl (v : Q) (self : t) : t :=
  {| mass := mass self; inertia := inertia self; Sw := Sw self;
     chord := chord self; span := span self; controls := controls self;
     control_limits := control_limits self; CL := CL self; CD := CD self;
     Cm := Cm self; CY := CY self; Cl := v; Cn := Cn self; Ct := Ct self;
     gravity_force := gravity_force self; total_forces := total_forces self;
     total_moments := total_moments self; load_factor := load_factor self;
     TAS := TAS self; CAS := CAS self; EAS := EAS self; Mach := Mach self;
     q_inf := q_inf self; p := p self; q := q self; r := r self;
     alpha := alpha self; beta := beta self; alpha_dot := alpha_dot self;
     CM := CM self; CN := CN self |}.

(** [self.CN = v] *)
Definition set_CN (v : Q) (self : t) : t :=
  {| mass := mass self; inertia := inertia self; Sw := Sw self;
     chord := chord self; span := span self; controls := controls self;
     control_limits := control_limits self; CL := CL self; CD := CD self;
     Cm := Cm self; CY := CY self; Cl := Cl self; Cn := Cn self;
     Ct := Ct self; gravity_force := gravity_force self;
     total_forces := total_forces self; total_moments := total_moments self;
     load_factor := load_factor self; TAS := TAS self; CAS := CAS self;
     EAS := EAS self; Mach := Mach self; q_inf := q_inf self; p := p self;
     q := q self; r := r self; alpha := alpha self; beta := beta self;
     alpha_dot := alpha_dot self; CM := CM self; CN := Some v |}.

(** [self.Ct = v] *)
Definition set_Ct (v : Q) (self : t) : t :=
  {| mass := mass self; inertia := inertia self; Sw := Sw self;
     chord := chord self; span := span self; controls := controls self;
     control_limits := control_limits self; CL := CL self; CD := CD self;
     Cm := Cm self; CY := CY self; Cl := Cl self; Cn := Cn self; Ct := v;
     gravity_force := gravity_force self; total_forces := total_forces self;
     total_moments := total_moments self; load_factor := load_factor self;
     TAS := TAS self; CAS := CAS self; EAS := EAS self; Mach := Mach self;
     q_inf := q_inf self; p := p self; q := q self; r := r self;
     alpha := alpha self; beta := beta self; alpha_dot := alpha_dot self;
     CM := CM self; CN := CN self |}.

(** [self.total_forces = v] *)
Definition set_total_forces (v : vec3) (self : t) : t :=
  {| mass := mass self; inertia := inertia self; Sw := Sw self;
     chord := chord self; span := span self; controls := controls self;
     control_limits := control_limits self; CL := CL self; CD := CD self;
     Cm := Cm self; CY := CY self; Cl := Cl self; Cn := Cn self;
     Ct := Ct self; gravity_force := gravity_force self; total_forces := v;
     total_moments := total_moments self; load_factor := load_factor self;
     TAS := TAS self; CAS := CAS self; EAS := EAS self; Mach := Mach self;
     q_inf := q_inf self; p := p self; q := q self; r := r self;
     alpha := alpha self; beta := beta self; alpha_dot := alpha_dot self;
     CM := CM self; CN := CN self |}.

(** [self.total_moments = v] *)
Definition set_total_moments (v : vec3) (self : t) : t :=
  {| mass := mass self; inertia := inertia self; Sw := Sw self;
     chord := chord self; span := span self; controls := controls self;
     control_limits := control_limits self; CL := CL self; CD := CD self;
     Cm := Cm self; CY := CY self; Cl := Cl self; Cn := Cn self;
     Ct := Ct self; gravity_force := gravity_force self;
     total_forces := total_forces self; total_moments := v;
     load_factor := load_factor self; TAS := TAS self; CAS := CAS self;
     EAS := EAS self; Mach := Mach self; q_inf := q_inf self; p := p self;
     q := q self; r := r self; alpha := alpha self; beta := beta self;
     alpha_dot := alpha_dot self; CM := CM self; CN := CN self |}.

(** [self.q_inf = v], an assignment of the caller. *)
Definition set_q_inf (v : Q) (self : t) : t :=
  {| mass := mass self; inertia := inertia self; Sw := Sw self;
     chord := chord self; span := span self; controls := controls self;
     control_limits := control_limits self; CL := CL self; CD := CD self;
     Cm := Cm self; CY := CY self; Cl := Cl self; Cn := Cn self;
     Ct := Ct self; gravity_force := gravity_force self;
     total_forces := total_forces self; total_moments := total_moments self;
     load_factor := load_factor self; TAS := TAS self; CAS := CAS self;
     EAS := EAS self; Mach := Mach self; q_inf := v; p := p self;
     q := q self; r := r self; alpha := alpha self; beta := beta self;
     alpha_dot := alpha_dot self; CM := CM self; CN := CN self |}.

(** What the caller assigns before an evaluation: the state, the controls
    and the gravity force. *)
Record inputs : Type := mk_inputs {
  in_TAS : Q;
  in_q_inf : Q;
  in_p : Q;
  in_q : Q;
  in_r : Q;
  in_alpha : Q;
  in_beta : Q;
  in_alpha_dot : Q;
  in_controls : gmap string Q;
  in_gravity_force : vec3
}.

(** The assignments themselves. *)
Definition set_inputs (i : inputs) (self : t) : t :=
  {| mass := mass self; inertia := inertia self; Sw := Sw self;
     chord := chord self; span := span self; controls := in_controls i;
     control_limits := control_limits self; CL := CL self; CD := CD self;
     Cm := Cm self; CY := CY self; Cl := Cl self; Cn := Cn self;
     Ct := Ct self; gravity_force := in_gravity_force i;
     total_forces := total_forces self; total_moments := total_moments self;
     load_factor := load_factor self; TAS := in_TAS i; CAS := CAS self;
     EAS := EAS self; Mach := Mach self; q_inf := in_q_inf i; p := in_p i;
     q := in_q i; r := in_r i; alpha := in_alpha i; beta := in_beta i;
     alpha_dot := in_alpha_dot i; CM := CM self; CN := CN self |}.

(** *** The methods *)

Definition _calculate_aero_lon_forces_moments_coeffs : M t unit :=
  let! self := get in
  let! de := getitem (controls self) "delta_elevator" in
  let delta_elev := rad2deg de in
  let alpha_DEG := rad2deg (alpha self) in
  let c := chord self in
  let V := TAS self in
  let CD_interp := interp alpha_DEG alpha_data CD_data in
  let CD_delta_elev_interp :=
    RectBivariateSpline delta_elev_data alpha_data CD_delta_elev_data in
  let CL_interp := interp alpha_DEG alpha_data CL_data in
  let CL_alphadot_interp := interp alpha_DEG alpha_data CL_alphadot_data in
  let CL_q_interp := interp alpha_DEG alpha_data CL_q_data in
  let CL_delta_elev_interp :=
    interp delta_elev delta_elev_data CL_delta_elev_data in
  let CM_interp := interp alpha_DEG alpha_data CM_data in
  let CM_q_interp := interp alpha_DEG alpha_data CM_q_data in
  let CM_alphadot_interp := interp alpha_DEG alpha_data CM_alphadot_data in
  let CM_delta_elev_interp :=
    interp delta_elev delta_elev_data CM_delta_elev_data in
  let! k := truediv c (2 * V) in
  do! modify (set_CL (CL_interp + CL_delta_elev_interp
                      + k * (CL_alphadot_interp * alpha_dot self
                             + CL_q_interp * q self))) in
  do! modify (set_CD (CD_interp
                      + bispev CD_delta_elev_interp delta_elev alpha_DEG)) in
  let! k' := truediv c (2 * V) in
  modify (set_CM (CM_interp + CM_delta_elev_interp
                  + k' * (CM_q_interp * q self
                          + CM_alphadot_interp * alpha_dot self))).

Definition _calculate_aero_lat_forces_moments_coeffs : M t unit :=
  let! self := get in
  let! da := getitem (controls self) "delta_aileron" in
  let delta_aile := rad2deg da in
  let! dr := getitem (controls self) "delta_rudder" in
  let delta_rud := rad2deg dr in
  let delta_rud_RAD := dr in
  let alpha_DEG := rad2deg (alpha self) in
  let b := span self in
  let V := TAS self in
  let CY_beta_interp := interp alpha_DEG alpha_data CY_beta_data in
  let CY_p_interp := interp alpha_DEG alpha_data CY_p_data in
  let CY_r_interp := interp alpha_DEG alpha_data CY_r_data in
  let CY_delta_rud_interp := interp alpha_DEG alpha_data CY_delta_rud_data in
  let Cl_beta_interp := interp alpha_DEG alpha_data Cl_beta_data in
  let Cl_p_interp := interp alpha_DEG alpha_data Cl_p_data in
  let Cl_r_interp := interp alpha_DEG alpha_data Cl_r_data in
  let Cl_delta_rud_interp := interp alpha_DEG alpha_data Cl_delta_rud_data in
  let Cl_delta_aile_interp :=
    interp delta_aile delta_aile_data Cl_delta_aile_data in
  let CN_beta_interp := interp alpha_DEG alpha_data CN_beta_data in
  let CN_p_interp := interp alpha_DEG alpha_data CN_p_data in
  let CN_r_interp := interp alpha_DEG alpha_data CN_r_data in
  let CN_delta_rud_interp := interp alpha_DEG alpha_data CN_delta_rud_data in
  let CN_delta_aile_interp :=
    RectBivariateSpline delta_aile_data alpha_data CN_delta_aile_data in
  let! k1 := truediv b (2 * V) in
  do! modify (set_CY (CY_beta_interp * beta self
                      + CY_delta_rud_interp * delta_rud_RAD
                      + k1 * (CY_p_interp * p self
                              + CY_r_interp * r self))) in
  let! k2 := truediv b (2 * V) in
  do! modify (set_Cl (Cl_beta_interp * beta self + Cl_delta_aile_interp
                      + Cl_delta_rud_interp * delta_rud_RAD
                      + k2 * (Cl_p_interp * p self
                              + Cl_r_interp * r self))) in
  let! k3 := truediv b (2 * V) in
  modify (set_CN (CN_beta_interp * beta self
                  + bispev CN_delta_aile_interp delta_aile alpha_DEG
                  + CN_delta_rud_interp * delta_rud_RAD
                  + k3 * (CN_p_interp * p self + CN_r_interp * r self))).

(** Returns [(L, D, Y, l, m, n)]. *)
Definition _calculate_aero_forces_moments : M t (Q * Q * Q * Q * Q * Q) :=
  let! self := get in
  let q_ := q_inf self in
  let Sw_ := Sw self in
  let c := chord self in
  let b := span self in
  do! _calculate_aero_lon_forces_moments_coeffs in
  do! _calculate_aero_lat_forces_moments_coeffs in
  let! self := get in
  let L := q_ * Sw_ * CL self in
  let D := q_ * Sw_ * CD self in
  let Y := q_ * Sw_ * CY self in
  let l := q_ * Sw_ * b * Cl self in
  let! cm := getattr "CM" (CM self) in
  let m := q_ * Sw_ * c * cm in
  let! cn := getattr "CN" (CN self) in
  let n := q_ * Sw_ * b * cn in
  ret (L, D, Y, l, m, n).

Definition _calculate_thrust_forces_moments : M t vec3 :=
  let! self := get in
  let q_ := q_inf self in
  let Sw_ := Sw self in
  let! dt := getitem (controls self) "delta_t" in
  do! modify (set_Ct (0.031 * dt)) in
  let! self := get in
  let Ft := (q_ * Sw_ * Ct self, 0, 0) in
  ret Ft.

Definition calculate_forces_and_moments : M t (vec3 * vec3) :=
  let! Ft := _calculate_thrust_forces_moments in
  let! (L, D, Y, l, m, n) := _calculate_aero_forces_moments in
  let! self := get in
  let Fg := gravity_force self in
  let Fa := (- D, Y, - L) in
  do! modify (set_total_forces (vadd (vadd (vscale 10 Ft) Fg) Fa)) in
  do! modify (set_total_moments (l, m, n)) in
  let! self := get in
  ret (total_forces self, total_moments self).

(** [Cm] and [Cn] hold [cm] and [cn]. *)
Definition keeps_Cm_Cn (cm cn : Q) (self : t) : Prop :=
  Cm self = cm /\ Cn self = cn.

(** *** A run of the simulation

    Before each evaluation the caller assigns the state, the controls and
    the gravity force; [simulate] performs the evaluations one after the
    other on the same instance, whether they raise or return. *)

Definition step (self : t) (i : inputs) : t :=
  fst (calculate_forces_and_moments (set_inputs i self)).

Definition simulate (self : t) (steps : list inputs) : t :=
  fold_left step steps self.

End Cessna172.

(** ** The model as the specification words it

    Section 4 of the specification: the coefficient build-up of the
    longitudinal and of the lateral-directional model, the thrust model and
    the aggregation, over the same tables and the same two interpolations.
    Angles of the table lookups are in degrees, [delta_r] is in radians. *)

Module Spec.

Import NumPy Fitpack Cessna172.

Definition lookup (grid values : list Q) (x : Q) : Q := interp x grid values.

Definition lookup2 (grid_u grid_v : list Q) (matrix : list (list Q))
    (u v : Q) : Q :=
  bispev (RectBivariateSpline grid_u grid_v matrix) u v.

(** The two fitted surfaces. *)
Definition CD_delta_elev_surface : spline :=
  RectBivariateSpline delta_elev_data alpha_data CD_delta_elev_data.

Definition CN_delta_aile_surface : spline :=
  RectBivariateSpline delta_aile_data alpha_data CN_delta_aile_data.

(** [y] is the query [x] clamped to the bounds [lo] and [hi] of a grid:
    the point of the grid interval nearest to [x]. *)
Definition clamped_to (lo hi x y : Q) : Prop :=
  (lo <= y /\ y <= hi)
  /\ (x < lo -> y = lo)
  /\ (hi < x -> y = hi)
  /\ (lo <= x -> x <= hi -> y = x).

Section Longitudinal.

Variables (a delta_e c V a_dot q : Q).

Definition CL_model : Q :=
  lookup alpha_data CL_data a + lookup delta_elev_data CL_delta_elev_data delta_e
  + (c / (2 * V)) * (lookup alpha_data CL_alphadot_data a * a_dot
                     + lookup alpha_data CL_q_data a * q).

Definition CD_model : Q :=
  lookup alpha_data CD_data a
  + lookup2 delta_elev_data alpha_data CD_delta_elev_data delta_e a.

Definition CM_model : Q :=
  lookup alpha_data CM_data a + lookup delta_elev_data CM_delta_elev_data delta_e
  + (c / (2 * V)) * (lookup alpha_data CM_q_data a * q
                     + lookup alpha_data CM_alphadot_data a * a_dot).

End Longitudinal.

Section Lateral.

Variables (a delta_a beta delta_r b V p r : Q).

Definition CY_model : Q :=
  lookup alpha_data CY_beta_data a * beta
  + lookup alpha_data CY_delta_rud_data a * delta_r
  + (b / (2 * V)) * (lookup alpha_data CY_p_data a * p
                     + lookup alpha_data CY_r_data a * r).

Definition Cl_model : Q :=
  lookup alpha_data Cl_beta_data a * beta
  + lookup delta_aile_data Cl_delta_aile_data delta_a
  + lookup alpha_data Cl_delta_rud_data a * delta_r
  + (b / (2 * V)) * (lookup alpha_data Cl_p_data a * p
                     + lookup alpha_data Cl_r_data a * r).

Definition CN_model : Q :=
  lookup alpha_data CN_beta_data a * beta
  + lookup2 delta_aile_data alpha_data CN_delta_aile_data delta_a a
  + lookup alpha_data CN_delta_rud_data a * delta_r
  + (b / (2 * V)) * (lookup alpha_data CN_p_data a * p
                     + lookup alpha_data CN_r_data a * r).

End Lateral.

(** Thrust: [Ct = k_t * throttle], the force along the body x axis. *)
Definition k_t : Q := 0.031.

Definition thrust_coefficient (throttle : Q) : Q := k_t * throttle.

Definition thrust_force (q_inf Sw Ct : Q) : vec3 := (q_inf * Sw * Ct, 0, 0).

(** Aggregation. *)
Definition aero_force (L D Y : Q) : vec3 := (- D, Y, - L).

Definition total_force (thrust gravity aero : vec3) : vec3 :=
  vadd (vadd (vscale 10 thrust) gravity) aero.

End Spec.

(** ** What an evaluation leaves behind

    The instance and the values at the end of each method when it returns,
    for an instance [s] whose controls are the throttle [dt], the elevator
    [de], the aileron [da] and the rudder [dr] (radians).  That the methods
    end with them is proved below (lemmas [lon_returns], [lat_returns],
    [thrust_returns], [aero_returns], [calc_returns]). *)

Module Outcome.

Import NumPy Cessna172.

Section At.

Variable s : t.
Variables dt de da dr : Q.

Definition CL_value : Q :=
  Spec.CL_model (rad2deg (alpha s)) (rad2deg de) (chord s) (TAS s)
    (alpha_dot s) (q s).

Definition CD_value : Q := Spec.CD_model (rad2deg (alpha s)) (rad2deg de).

Definition CM_value : Q :=
  Spec.CM_model (rad2deg (alpha s)) (rad2deg de) (chord s) (TAS s)
    (alpha_dot s) (q s).

Definition CY_value : Q :=
  Spec.CY_model (rad2deg (alpha s)) (beta s) dr (span s) (TAS s) (p s)
    (r s).

Definition Cl_value : Q :=
  Spec.Cl_model (rad2deg (alpha s)) (rad2deg da) (beta s) dr (span s)
    (TAS s) (p s) (r s).

Definition CN_value : Q :=
  Spec.CN_model (rad2deg (alpha s)) (rad2deg da) (beta s) dr (span s)
    (TAS s) (p s) (r s).

Definition after_thrust : t := set_Ct (0.031 * dt) s.

Definition after_lon (s1 : t) : t :=
  set_CM CM_value (set_CD CD_value (set_CL CL_value s1)).

Definition after_lat (s1 : t) : t :=
  set_CN CN_value (set_Cl Cl_value (set_CY CY_value s1)).

Definition Ft : vec3 := (q_inf s * Sw s * (0.031 * dt), 0, 0).

Definition L : Q := q_inf s * Sw s * CL_value.
Definition D : Q := q_inf s * Sw s * CD_value.
Definition Y : Q := q_inf s * Sw s * CY_value.
Definition l : Q := q_inf s * Sw s * span s * Cl_value.
Definition m : Q := q_inf s * Sw s * chord s * CM_value.
Definition n : Q := q_inf s * Sw s * span s * CN_value.

Definition forces : vec3 :=
  vadd (vadd (vscale 10 Ft) (gravity_force s)) (- D, Y, - L).

Definition moments : vec3 := (l, m, n).

Definition final : t :=
  set_total_moments moments
    (set_total_forces forces (after_lat (after_lon after_thrust))).

End At.

End Outcome.

(** ** Instances to evaluate on *)

Module Scenario.

Import NumPy Cessna172.

(** A freshly constructed aircraft, with 0.3048 m to the foot, 0.453592 kg
    to the pound and 1.3558179 kg m^2 to the slug ft^2. *)
Definition fresh : t := __init__ 0.3048 0.453592 1.3558179.

Definition all_controls (dt de da dr : Q) : gmap string Q :=
  <["delta_t" := dt]>
    (<["delta_elevator" := de]>
       (<["delta_aileron" := da]> (<["delta_rudder" := dr]> ∅))).

(** Everything at zero but the airspeed [V] and the dynamic pressure. *)
Definition zero_inputs (V q_inf : Q) : inputs :=
  {| in_TAS := V; in_q_inf := q_inf; in_p := 0; in_q := 0; in_r := 0;
     in_alpha := 0; in_beta := 0; in_alpha_dot := 0;
     in_controls := all_controls 0 0 0 0;
     in_gravity_force := (0, 0, 0) |}.

Definition zero_state (V : Q) : t := set_inputs (zero_inputs V 1500) fresh.

(** A cruise condition: 60 m/s, 0.05 rad of incidence, a little of every
    rate and control, and the weight along the body z axis. *)
Definition cruise_inputs : inputs :=
  {| in_TAS := 60; in_q_inf := 2205; in_p := 0.01; in_q := 0.02;
     in_r := -0.01; in_alpha := 0.05; in_beta := 0.01; in_alpha_dot := 0.001;
     in_controls := all_controls 0.6 (-0.02) 0.03 0.01;
     in_gravity_force := (0, 0, 10234) |}.

Definition cruise : t := set_inputs cruise_inputs fresh.

(** The aircraft as constructed, standing still ([TAS = 0]), with the
    throttle set. *)
Definition parked : t := set_inputs (zero_inputs 0 0) fresh.

(** The aircraft moving backwards at 1 m/s. *)
Definition reversing : t := set_inputs (zero_inputs (-1) 1) fresh.

(** Zero state but for the aileron, deflected by [da_deg] degrees, at an
    angle of attack of [a_deg] degrees and an airspeed of 50 m/s. *)
Definition aileron_inputs (da_deg a_deg : Q) : inputs :=
  {| in_TAS := 50; in_q_inf := 1500; in_p := 0; in_q := 0; in_r := 0;
     in_alpha := a_deg / rad2deg_factor; in_beta := 0; in_alpha_dot := 0;
     in_controls := all_controls 0 0 (da_deg / rad2deg_factor) 0;
     in_gravity_force := (0, 0, 0) |}.

Definition aileron_state (da_deg a_deg : Q) : t :=
  set_inputs (aileron_inputs da_deg a_deg) fresh.

(** Any instance in that condition: the aileron at [da_deg] degrees, the
    angle of attack at [a_deg] degrees, no sideslip, no rudder, no roll or
    yaw rate, a positive airspeed. *)
Definition zero_but_aileron (s : t) (da_deg a_deg : Q) : Prop :=
  alpha s = a_deg / rad2deg_factor
  /\ beta s = 0 /\ p s = 0 /\ r s = 0
  /\ controls s !! "delta_aileron" = Some (da_deg / rad2deg_factor)
  /\ controls s !! "delta_rudder" = Some 0
  /\ 0 < TAS s.

(** The entry of row [i] and column [j] of a two-dimensional table. *)
Definition table_entry (matrix : list (list Q)) (i j : nat) : option Q :=
  match matrix !! i with
  | Some row => row !! j
  | None => None
  end.

(** The yawing moment of the aileron at -5 and at +5 degrees against the
    rows of the table for these deflections, at every tabulated angle of
    attack: each is the entry of its row, the two entries have opposite
    signs and are not opposite numbers. *)
Definition aileron_rows_agree (S : Fitpack.spline) (row : Q * (Q * Q))
  : bool :=
  let '(a, (tm, tp)) := row in
  Qeq_bool (Fitpack.bispev S (rad2deg (-5 / rad2deg_factor))
              (rad2deg (a / rad2deg_factor))) tm
  && Qeq_bool (Fitpack.bispev S (rad2deg (5 / rad2deg_factor))
                 (rad2deg (a / rad2deg_factor))) tp
  && Qltb (tm * tp) 0
  && negb (Qeq_bool tm (- tp)).

Definition aileron_rows : list (Q * (Q * Q)) :=
  combine alpha_data
    (combine (nth 2 CN_delta_aile_data []) (nth 5 CN_delta_aile_data [])).

End Scenario.

(** ** Further notions for the properties of the evaluation *)

Module Table.

(** The values of a table do not decrease along the grid. *)
Fixpoint nondecreasing_from (y0 : Q) (ys : list Q) : Prop :=
  match ys with
  | [] => True
  | y1 :: ys' => y0 <= y1 /\ nondecreasing_from y1 ys'
  end.

Definition nondecreasing (ys : list Q) : Prop :=
  match ys with
  | [] => True
  | y0 :: ys' => nondecreasing_from y0 ys'
  end.

(** Every value of a table lies between [lo] and [hi]. *)
Definition within (lo hi : Q) (ys : list Q) : Prop :=
  Forall (fun y => lo <= y /\ y <= hi) ys.

End Table.

(** ** Rows of coefficients *)

Module Rows.

Import Fitpack.

Definition lscale (h : Q) (u : list Q) : list Q := map (Qmult h) u.

Definition ladd (u v : list Q) : list Q :=
  map (fun '(a, b) => a + b) (combine u v).

(** The combination of the rows [R] with the weights [hx], for rows of
    length [m]. *)
Fixpoint lincomb (m : nat) (hx : list Q) (R : list (list Q)) : list Q :=
  match hx, R with
  | h :: hx', row :: R' => ladd (lscale h row) (lincomb m hx' R')
  | _, _ => repeat 0 m
  end.

(** The rows have length [m] and their combination with the weights [hx]
    is the zero row. *)
Definition cancels (m : nat) (hx : list Q) (R : list (list Q)) : bool :=
  forallb (fun row => Nat.eqb (length row) m) R
  && forallb (Qeq_bool 0) (lincomb m hx R).

(** The B-spline weights of the argument [x] in the first direction of a
    surface, and the rows of coefficients they weigh. *)
Definition weights_x (S : spline) (x : Q) : list Q :=
  fpbspl (tx S) (kx S) x (interval (tx S) (kx S) x).

Definition rows_x (S : spline) (x : Q) : list (list Q) :=
  window (interval (tx S) (kx S) x - kx S) (Datatypes.S (kx S)) (coef S).

(** The fitted surface returns the entries of [matrix] at the points of
    the grid. *)
Definition nodes_agree (S : spline) (grid_u grid_v : list Q)
    (matrix : list (list Q)) : bool :=
  forallb
    (fun '(u, row) =>
       forallb (fun '(v, z) => Qeq_bool (bispev S u v) z)
         (combine grid_v row))
    (combine grid_u matrix).

End Rows.

(** ** The ways an evaluation can end *)

Module Paths.

Import Py Cessna172.

(** The instance and the result at the end of
    [calculate_forces_and_moments], by what the controls hold and whether
    the airspeed is zero: the first lookup or division that fails stops
    the evaluation, with the assignments made before it. *)
Definition verdict (s : t) : t * (exn + vec3 * vec3) :=
  match controls s !! "delta_t" with
  | None => (s, inl (KeyError "delta_t"))
  | Some dt =>
      let s1 := Outcome.after_thrust s dt in
      match controls s !! "delta_elevator" with
      | None => (s1, inl (KeyError "delta_elevator"))
      | Some de =>
          if Qeq_bool (2 * TAS s) 0 then (s1, inl ZeroDivisionError)
          else
            let s2 := Outcome.after_lon s de s1 in
            match controls s !! "delta_aileron" with
            | None => (s2, inl (KeyError "delta_aileron"))
            | Some da =>
                match controls s !! "delta_rudder" with
                | None => (s2, inl (KeyError "delta_rudder"))
                | Some dr =>
                    (Outcome.final s dt de da dr,
                     inr (Outcome.forces s dt de dr,
                          Outcome.moments s de da dr))
                end
            end
      end
  end.

(** The attributes that are not coefficients, total forces or total
    moments: what the constructor and the caller assign. *)
Definition assigned_by_caller (s : t) :=
  (mass s, inertia s, Sw s, chord s, span s, controls s, control_limits s,
   (gravity_force s, load_factor s, TAS s, CAS s, EAS s, Mach s, q_inf s),
   (p s, q s, r s, alpha s, beta s, alpha_dot s)).

(** The inputs [i] with another angle of attack. *)
Definition with_alpha (a : Q) (i : inputs) : inputs :=
  {| in_TAS := in_TAS i; in_q_inf := in_q_inf i; in_p := in_p i;
     in_q := in_q i; in_r := in_r i; in_alpha := a; in_beta := in_beta i;
     in_alpha_dot := in_alpha_dot i; in_controls := in_controls i;
     in_gravity_force := in_gravity_force i |}.

(** The inputs [i] with the control [key] at [v]. *)
Definition with_control (key : string) (v : Q) (i : inputs) : inputs :=
  {| in_TAS := in_TAS i; in_q_inf := in_q_inf i; in_p := in_p i;
     in_q := in_q i; in_r := in_r i; in_alpha := in_alpha i;
     in_beta := in_beta i; in_alpha_dot := in_alpha_dot i;
     in_controls := <[key := v]> (in_controls i);
     in_gravity_force := in_gravity_force i |}.

End Paths.

(** ** More instances to evaluate on *)

Module Cases.

Import NumPy Cessna172.

(** The constructed aircraft at 50 m/s with the throttle set and nothing
    else done to the controls, whose [CY] was 1 before. *)
Definition throttle_only : t :=
  set_inputs
    {| in_TAS := 50; in_q_inf := 1500; in_p := 0; in_q := 0; in_r := 0;
       in_alpha := 0; in_beta := 0; in_alpha_dot := 0;
       in_controls := <["delta_t" := 0.5]> (controls Scenario.fresh);
       in_gravity_force := (0, 0, 0) |}
    (set_CY 1 Scenario.fresh).

(** The same with the aileron control removed. *)
Definition no_aileron : t :=
  set_inputs
    {| in_TAS := 50; in_q_inf := 1500; in_p := 0; in_q := 0; in_r := 0;
       in_alpha := 0; in_beta := 0; in_alpha_dot := 0;
       in_controls :=
         delete "delta_aileron"
           (<["delta_t" := 0.5]> (controls Scenario.fresh));
       in_gravity_force := (0, 0, 0) |}
    (set_CY 1 Scenario.fresh).

(** A climb in symmetric flight: throttle and elevator set, the angle of
    attack at 0.1 rad with a pitch rate, no sideslip, no roll or yaw rate,
    aileron and rudder at neutral. *)
Definition symmetric_inputs : inputs :=
  {| in_TAS := 55; in_q_inf := 1800; in_p := 0; in_q := 0.02; in_r := 0;
     in_alpha := 0.1; in_beta := 0; in_alpha_dot := 0.01;
     in_controls := Scenario.all_controls 0.7 (-0.05) 0 0;
     in_gravity_force := (0, 0, 9000) |}.

Definition symmetric : t := set_inputs symmetric_inputs Scenario.fresh.

(** The first assignments of a caller who leaves the controls as the
    constructor made them. *)
Definition first_call : inputs :=
  {| in_TAS := 50; in_q_inf := 1500; in_p := 0; in_q := 0; in_r := 0;
     in_alpha := 0.05; in_beta := 0; in_alpha_dot := 0;
     in_controls := controls Scenario.fresh;
     in_gravity_force := (0, 0, 10234) |}.

End Cases.

(** * Properties *)

Import NumPy Fitpack Py Cessna172.

(** ** Comparisons on rationals *)

Lemma Qltb_lt (a b : Q) : Qltb a b = true <-> a < b.
Proof.
  unfold Qltb. rewrite negb_true_iff, <- not_true_iff_false, Qle_bool_iff.
  split; intros H; [apply Qnot_le_lt | apply Qlt_not_le]; exact H.
Qed.

Lemma Qltb_ge (a b : Q) : Qltb a b = false <-> b <= a.
Proof. unfold Qltb. rewrite negb_false_iff. apply Qle_bool_iff. Qed.

Lemma Qeq_bool_false (a b : Q) : ~ a == b -> Qeq_bool a b = false.
Proof.
  intros H. destruct (Qeq_bool a b) eqn:E; [|reflexivity].
  apply Qeq_bool_eq in E. contradiction.
Qed.

Lemma veq_third (a b : vec3) :
  veq a b -> Qeq_bool (snd a) (snd b) = true.
Proof.
  destruct a as [[a1 a2] a3], b as [[b1 b2] b3]. intros (_ & _ & H).
  apply Qeq_bool_iff. exact H.
Qed.

(** ** [np.interp] on a strictly increasing grid *)

Section Interp.

Lemma increasing_from_lookup (xs : list Q) : forall x0 i xi,
  increasing_from x0 xs -> xs !! i = Some xi -> x0 < xi.
Proof.
  induction xs as [|x1 xs IH]; intros x0 i xi Hinc Hi; [discriminate|].
  destruct Hinc as [H01 Hinc]. destruct i as [|i]; simpl in Hi.
  - injection Hi as <-. exact H01.
  - apply Qlt_trans with x1; [exact H01 | eapply IH; eassumption].
Qed.

(** A query on the sample of index [i] stops the search there. *)
Lemma interp_from_node (xp : list Q) : forall fp x0 y0 i xi yi x,
  increasing_from x0 xp -> length xp = length fp ->
  (x0 :: xp) !! i = Some xi -> (y0 :: fp) !! i = Some yi ->
  x == xi -> interp_from x x0 y0 (combine xp fp) = yi.
Proof.
  induction xp as [|x1 xp IH]; intros fp x0 y0 i xi yi x Hinc Hlen Hx Hy Hxi.
  - destruct fp; [|discriminate]. destruct i as [|i]; [|discriminate].
    simpl in *. congruence.
  - destruct fp as [|y1 fp]; [discriminate|].
    destruct Hinc as [H01 Hinc]. simpl.
    destruct i as [|i]; simpl in Hx, Hy.
    + injection Hx as <-. injection Hy as <-.
      assert (Hlt : Qltb x x1 = true) by (apply Qltb_lt; lra).
      assert (Heq : Qeq_bool x0 x = true)
        by (apply Qeq_bool_iff; symmetry; exact Hxi).
      rewrite Hlt, Heq. reflexivity.
    + assert (Hge : Qltb x x1 = false).
      { apply Qltb_ge. destruct i as [|i]; simpl in Hx.
        - injection Hx as <-. lra.
        - pose proof (increasing_from_lookup _ _ _ _ Hinc Hx). lra. }
      rewrite Hge. apply (IH fp x1 y1 i xi yi x); auto.
Qed.

(** A query beyond the last sample runs through the whole grid. *)
Lemma interp_from_above (xp : list Q) : forall fp x0 y0 xn yn x,
  increasing_from x0 xp -> length xp = length fp ->
  last (x0 :: xp) = Some xn -> last (y0 :: fp) = Some yn ->
  xn < x -> interp_from x x0 y0 (combine xp fp) = yn.
Proof.
  induction xp as [|x1 xp IH]; intros fp x0 y0 xn yn x Hinc Hlen Hx Hy Hlt.
  - destruct fp; [|discriminate]. simpl in *. congruence.
  - destruct fp as [|y1 fp]; [discriminate|].
    destruct Hinc as [H01 Hinc]. simpl.
    rewrite last_cons_cons in Hx, Hy.
    assert (Hge : Qltb x x1 = false).
    { apply Qltb_ge. rewrite last_lookup in Hx. simpl in Hx.
      destruct (length xp) as [|n] eqn:En; simpl in Hx.
      - injection Hx as <-. lra.
      - pose proof (increasing_from_lookup _ _ _ _ Hinc Hx). lra. }
    rewrite Hge. apply (IH fp x1 y1 xn yn x); auto.
Qed.

Lemma interp_node (xp fp : list Q) (i : nat) (xi yi x : Q) :
  increasing xp -> length xp = length fp ->
  xp !! i = Some xi -> fp !! i = Some yi -> x == xi ->
  interp x xp fp = yi.
Proof.
  intros Hinc Hlen Hx Hy Hxi. unfold interp.
  destruct xp as [|x0 xp]; [discriminate|].
  destruct fp as [|y0 fp]; [discriminate|]. simpl combine. cbv iota beta.
  assert (Hge : Qltb x x0 = false).
  { apply Qltb_ge. destruct i as [|i]; simpl in Hx.
    - injection Hx as <-. lra.
    - pose proof (increasing_from_lookup _ _ _ _ Hinc Hx). lra. }
  rewrite Hge. apply interp_from_node with (i := i) (xi := xi); auto.
Qed.

Lemma interp_below (xp fp : list Q) (x x0 y0 : Q) :
  length xp = length fp -> head xp = Some x0 -> head fp = Some y0 ->
  x < x0 -> interp x xp fp = y0.
Proof.
  intros Hlen Hx Hy Hlt. unfold interp.
  destruct xp as [|x0' xp]; [discriminate|].
  destruct fp as [|y0' fp]; [discriminate|]. simpl in *.
  injection Hx as ->. injection Hy as ->.
  apply Qltb_lt in Hlt. rewrite Hlt. reflexivity.
Qed.

Lemma interp_above (xp fp : list Q) (x xn yn : Q) :
  increasing xp -> length xp = length fp ->
  last xp = Some xn -> last fp = Some yn ->
  xn < x -> interp x xp fp = yn.
Proof.
  intros Hinc Hlen Hx Hy Hlt. unfold interp.
  destruct xp as [|x0 xp]; [discriminate|].
  destruct fp as [|y0 fp]; [discriminate|]. simpl combine. cbv iota beta.
  assert (Hge : Qltb x x0 = false).
  { apply Qltb_ge. rewrite last_lookup in Hx. simpl in Hx.
    destruct (length xp) as [|n] eqn:En; simpl in Hx.
    - injection Hx as <-. lra.
    - pose proof (increasing_from_lookup _ _ _ _ Hinc Hx). lra. }
  rewrite Hge. apply interp_from_above with (xn := xn); auto.
Qed.

End Interp.

(** The three grids of the aircraft are strictly increasing. *)
Lemma alpha_data_increasing : increasing alpha_data.
Proof. unfold increasing, alpha_data; simpl; repeat split; reflexivity. Qed.

Lemma delta_elev_data_increasing : increasing delta_elev_data.
Proof. unfold increasing, delta_elev_data; simpl; repeat split; reflexivity. Qed.

Lemma delta_aile_data_increasing : increasing delta_aile_data.
Proof. unfold increasing, delta_aile_data; simpl; repeat split; reflexivity. Qed.

(** Every table has the length of the grid it is looked up on. *)
Lemma alpha_tables_length :
  Forall (fun fp => length fp = length alpha_data)
    [CD_data; CL_data; CL_alphadot_data; CL_q_data; CM_data; CM_q_data;
     CM_alphadot_data; CY_beta_data; CY_p_data; CY_r_data;
     CY_delta_rud_data; Cl_beta_data; Cl_p_data; Cl_r_data;
     Cl_delta_rud_data; CN_beta_data; CN_p_data; CN_r_data;
     CN_delta_rud_data].
Proof. repeat constructor. Qed.

Lemma deflection_tables_length :
  length CL_delta_elev_data = length delta_elev_data
  /\ length CM_delta_elev_data = length delta_elev_data
  /\ length Cl_delta_aile_data = length delta_aile_data.
Proof. repeat split. Qed.

(** Every lookup of the code on the angle-of-attack grid is exact at the
    grid points. *)
Lemma alpha_lookups_exact (fp : list Q) (j : nat) (a y x : Q) :
  In fp [CD_data; CL_data; CL_alphadot_data; CL_q_data; CM_data; CM_q_data;
         CM_alphadot_data; CY_beta_data; CY_p_data; CY_r_data;
         CY_delta_rud_data; Cl_beta_data; Cl_p_data; Cl_r_data;
         Cl_delta_rud_data; CN_beta_data; CN_p_data; CN_r_data;
         CN_delta_rud_data] ->
  alpha_data !! j = Some a -> fp !! j = Some y -> x == a ->
  interp x alpha_data fp = y.
Proof.
  intros Hfp Ha Hy Hx.
  apply interp_node with (i := j) (xi := a); auto.
  - exact alpha_data_increasing.
  - symmetry.
    exact (proj1 (List.Forall_forall _ _) alpha_tables_length fp Hfp).
Qed.

(** C9.  On a strictly increasing grid, [np.interp] returns the tabulated
    value at every grid point, the first tabulated value below the grid and
    the last one above it (flat extrapolation); the static drag looked up
    at an angle of attack of -30 degrees is 0.044, the value tabulated at
    -7.5 degrees. *)
Theorem C9_interp_nodes_and_flat_ends (xp fp : list Q) :
  increasing xp -> length xp = length fp ->
  (forall i xi yi x,
      xp !! i = Some xi -> fp !! i = Some yi -> x == xi ->
      interp x xp fp = yi)
  /\ (forall x x0 y0,
      head xp = Some x0 -> head fp = Some y0 -> x < x0 ->
      interp x xp fp = y0)
  /\ (forall x xn yn,
      last xp = Some xn -> last fp = Some yn -> xn < x ->
      interp x xp fp = yn)
  /\ interp (-30) alpha_data CD_data = 0.044.
Proof.
  intros Hinc Hlen. repeat split.
  - intros i xi yi x. now apply interp_node.
  - intros x x0 y0. now apply interp_below.
  - intros x xn yn. now apply interp_above.
Qed.

Lemma C9_witness :
  increasing alpha_data /\ length alpha_data = length CD_data
  /\ interp 2.5 alpha_data CD_data = 0.036
  /\ interp (-8) alpha_data CD_data = 0.044
  /\ interp 25 alpha_data CD_data = 0.184.
Proof.
  pose proof (C9_interp_nodes_and_flat_ends alpha_data CD_data
                alpha_data_increasing eq_refl) as (Hnode & Hlo & Hhi & _).
  split; [exact alpha_data_increasing|]. split; [reflexivity|].
  split; [|split].
  - apply (Hnode 4%nat 2.5 0.036 2.5); reflexivity.
  - apply (Hlo (-8) (-7.5) 0.044); reflexivity.
  - apply (Hhi 25 19.5 0.184); reflexivity.
Defined.

(** ** The methods, step by step *)

Lemma truediv_ok {S : Type} (a b : Q) (s : S) :
  ~ b == 0 -> truediv a b s = (s, inr (a / b)).
Proof.
  intros H. unfold truediv. rewrite (Qeq_bool_false _ _ H). reflexivity.
Qed.

Lemma truediv_zero {S : Type} (a b : Q) (s : S) :
  b == 0 -> truediv a b s = (s, inl ZeroDivisionError).
Proof.
  intros H. unfold truediv. apply Qeq_bool_iff in H. rewrite H. reflexivity.
Qed.

Lemma twice_nonzero (V : Q) : ~ V == 0 -> ~ 2 * V == 0.
Proof. intros HV H. apply HV. lra. Qed.

Lemma twice_zero (V : Q) : V == 0 -> 2 * V == 0.
Proof. intros H. lra. Qed.

Ltac run_method :=
  cbv beta iota zeta delta [bind get modify ret raise getitem getattr].

Section Runs.

Variable s : t.
Variables dt de da dr : Q.

Lemma thrust_returns :
  controls s !! "delta_t" = Some dt ->
  _calculate_thrust_forces_moments s
  = (Outcome.after_thrust s dt, inr (Outcome.Ft s dt)).
Proof.
  intros Hdt. unfold _calculate_thrust_forces_moments. run_method.
  rewrite Hdt. reflexivity.
Qed.

Lemma thrust_raises :
  controls s !! "delta_t" = None ->
  _calculate_thrust_forces_moments s = (s, inl (KeyError "delta_t")).
Proof.
  intros Hdt. unfold _calculate_thrust_forces_moments. run_method.
  rewrite Hdt. reflexivity.
Qed.

Lemma lon_returns :
  controls s !! "delta_elevator" = Some de ->
  ~ TAS s == 0 ->
  _calculate_aero_lon_forces_moments_coeffs s
  = (Outcome.after_lon s de s, inr tt).
Proof.
  intros Hde HV. apply twice_nonzero in HV.
  unfold _calculate_aero_lon_forces_moments_coeffs. run_method.
  rewrite Hde. cbv beta iota.
  rewrite !(truediv_ok _ _ _ HV).
  unfold Outcome.after_lon, Outcome.CL_value, Outcome.CD_value,
    Outcome.CM_value, Spec.CL_model, Spec.CD_model, Spec.CM_model,
    Spec.lookup, Spec.lookup2.
  reflexivity.
Qed.

Lemma lon_raises_zero :
  controls s !! "delta_elevator" = Some de ->
  TAS s == 0 ->
  _calculate_aero_lon_forces_moments_coeffs s
  = (s, inl ZeroDivisionError).
Proof.
  intros Hde HV. apply twice_zero in HV.
  unfold _calculate_aero_lon_forces_moments_coeffs. run_method.
  rewrite Hde. cbv beta iota.
  rewrite (truediv_zero _ _ _ HV). reflexivity.
Qed.

Lemma lon_raises_key :
  controls s !! "delta_elevator" = None ->
  _calculate_aero_lon_forces_moments_coeffs s
  = (s, inl (KeyError "delta_elevator")).
Proof.
  intros Hde.
  unfold _calculate_aero_lon_forces_moments_coeffs. run_method.
  rewrite Hde. reflexivity.
Qed.

Lemma lat_returns :
  controls s !! "delta_aileron" = Some da ->
  controls s !! "delta_rudder" = Some dr ->
  ~ TAS s == 0 ->
  _calculate_aero_lat_forces_moments_coeffs s
  = (Outcome.after_lat s da dr s, inr tt).
Proof.
  intros Hda Hdr HV. apply twice_nonzero in HV.
  unfold _calculate_aero_lat_forces_moments_coeffs. run_method.
  rewrite Hda. cbv beta iota. rewrite Hdr. cbv beta iota.
  rewrite !(truediv_ok _ _ _ HV).
  unfold Outcome.after_lat, Outcome.CY_value, Outcome.Cl_value,
    Outcome.CN_value, Spec.CY_model, Spec.Cl_model, Spec.CN_model,
    Spec.lookup, Spec.lookup2.
  reflexivity.
Qed.

Lemma lat_raises_key :
  controls s !! "delta_aileron" = None
  \/ controls s !! "delta_rudder" = None ->
  exists key,
    _calculate_aero_lat_forces_moments_coeffs s = (s, inl (KeyError key)).
Proof.
  intros H.
  unfold _calculate_aero_lat_forces_moments_coeffs. run_method.
  destruct (controls s !! "delta_aileron") as [a|] eqn:Hda.
  - destruct H as [H|H]; [discriminate|]. rewrite H. eauto.
  - eauto.
Qed.

End Runs.

(** Reading the attributes of an instance that assignments built. *)
Ltac fields :=
  cbn [Outcome.after_thrust Outcome.after_lon Outcome.after_lat Outcome.final
       Outcome.forces Outcome.moments Outcome.Ft
       Outcome.L Outcome.D Outcome.Y Outcome.l Outcome.m Outcome.n
       Outcome.CL_value Outcome.CD_value Outcome.CM_value
       Outcome.CY_value Outcome.Cl_value Outcome.CN_value
       set_CL set_CD set_CM set_CY set_Cl set_CN set_Ct set_q_inf
       set_total_forces set_total_moments set_inputs
       mass inertia Sw chord span controls control_limits CL CD Cm CY Cl Cn
       Ct gravity_force total_forces total_moments load_factor TAS CAS EAS
       Mach q_inf p q r alpha beta alpha_dot CM CN].

Section Evaluation.

Variable s : t.
Variables dt de da dr : Q.

Hypothesis Hdt : controls s !! "delta_t" = Some dt.
Hypothesis Hde : controls s !! "delta_elevator" = Some de.
Hypothesis Hda : controls s !! "delta_aileron" = Some da.
Hypothesis Hdr : controls s !! "delta_rudder" = Some dr.

Lemma aero_returns :
  ~ TAS s == 0 ->
  _calculate_aero_forces_moments s
  = (Outcome.after_lat s da dr (Outcome.after_lon s de s),
     inr (Outcome.L s de, Outcome.D s de, Outcome.Y s dr,
          Outcome.l s da dr, Outcome.m s de, Outcome.n s da dr)).
Proof.
  intros HV. unfold _calculate_aero_forces_moments.
  cbv beta iota zeta delta [bind get].
  rewrite (lon_returns s de Hde HV).
  assert (Hda' : controls (Outcome.after_lon s de s) !! "delta_aileron"
                 = Some da) by exact Hda.
  assert (Hdr' : controls (Outcome.after_lon s de s) !! "delta_rudder"
                 = Some dr) by exact Hdr.
  assert (HV' : ~ TAS (Outcome.after_lon s de s) == 0) by exact HV.
  rewrite (lat_returns (Outcome.after_lon s de s) da dr Hda' Hdr' HV').
  cbv beta iota zeta delta [getattr ret]. fields. exact eq_refl.
Qed.

Lemma aero_raises_zero :
  TAS s == 0 ->
  _calculate_aero_forces_moments s = (s, inl ZeroDivisionError).
Proof.
  intros HV. unfold _calculate_aero_forces_moments.
  cbv beta iota zeta delta [bind get].
  rewrite (lon_raises_zero s de Hde HV). reflexivity.
Qed.

End Evaluation.

Section Aggregate.

Variable s : t.
Variables dt de da dr : Q.

Hypothesis Hdt : controls s !! "delta_t" = Some dt.
Hypothesis Hde : controls s !! "delta_elevator" = Some de.
Hypothesis Hda : controls s !! "delta_aileron" = Some da.
Hypothesis Hdr : controls s !! "delta_rudder" = Some dr.

Lemma calc_returns :
  ~ TAS s == 0 ->
  calculate_forces_and_moments s
  = (Outcome.final s dt de da dr,
     inr (Outcome.forces s dt de dr, Outcome.moments s de da dr)).
Proof.
  intros HV. unfold calculate_forces_and_moments.
  cbv beta iota zeta delta [bind get].
  rewrite (thrust_returns s dt Hdt).
  assert (Hde' : controls (Outcome.after_thrust s dt) !! "delta_elevator"
                 = Some de) by exact Hde.
  assert (Hda' : controls (Outcome.after_thrust s dt) !! "delta_aileron"
                 = Some da) by exact Hda.
  assert (Hdr' : controls (Outcome.after_thrust s dt) !! "delta_rudder"
                 = Some dr) by exact Hdr.
  assert (HV' : ~ TAS (Outcome.after_thrust s dt) == 0) by exact HV.
  rewrite (aero_returns (Outcome.after_thrust s dt) de da dr
             Hde' Hda' Hdr' HV').
  cbv beta iota zeta delta [modify ret]. fields. exact eq_refl.
Qed.

Lemma calc_raises_zero :
  TAS s == 0 ->
  calculate_forces_and_moments s
  = (Outcome.after_thrust s dt, inl ZeroDivisionError).
Proof.
  intros HV. unfold calculate_forces_and_moments.
  cbv beta iota zeta delta [bind get].
  rewrite (thrust_returns s dt Hdt).
  assert (Hde' : controls (Outcome.after_thrust s dt) !! "delta_elevator"
                 = Some de) by exact Hde.
  assert (HV' : TAS (Outcome.after_thrust s dt) == 0) by exact HV.
  rewrite (aero_raises_zero (Outcome.after_thrust s dt) de Hde' HV').
  reflexivity.
Qed.

End Aggregate.

(** ** The coefficient build-up *)

(** C6.  With a positive airspeed the longitudinal routine returns and
    leaves in [CL], [CD] and [CM] the build-up of the specification: the
    static terms and the rate derivatives looked up on the angle-of-attack
    grid, the elevator terms on the elevator grid (the drag increment on
    both), the rate terms scaled by c/(2V). *)
Theorem C6_longitudinal_build_up (s : t) (de : Q) :
  controls s !! "delta_elevator" = Some de ->
  0 < TAS s ->
  exists s',
    _calculate_aero_lon_forces_moments_coeffs s = (s', inr tt)
    /\ CL s' = Spec.CL_model (rad2deg (alpha s)) (rad2deg de) (chord s)
                 (TAS s) (alpha_dot s) (q s)
    /\ CD s' = Spec.CD_model (rad2deg (alpha s)) (rad2deg de)
    /\ CM s' = Some (Spec.CM_model (rad2deg (alpha s)) (rad2deg de)
                       (chord s) (TAS s) (alpha_dot s) (q s)).
Proof.
  intros Hde HV.
  assert (HV0 : ~ TAS s == 0) by lra.
  exists (Outcome.after_lon s de s).
  split; [exact (lon_returns s de Hde HV0)|].
  repeat split.
Qed.

Lemma C6_witness :
  exists s',
    _calculate_aero_lon_forces_moments_coeffs Scenario.cruise = (s', inr tt)
    /\ CL s' = Spec.CL_model (rad2deg 0.05) (rad2deg (-0.02))
                 (4.9 * 0.3048) 60 0.001 0.02
    /\ CD s' = Spec.CD_model (rad2deg 0.05) (rad2deg (-0.02))
    /\ CM s' = Some (Spec.CM_model (rad2deg 0.05) (rad2deg (-0.02))
                       (4.9 * 0.3048) 60 0.001 0.02).
Proof.
  apply (C6_longitudinal_build_up Scenario.cruise (-0.02)); reflexivity.
Defined.

(** C7.  With a positive airspeed the lateral-directional routine returns
    and leaves in [CY], [Cl] and [CN] the build-up of the specification
    (the rudder deflection in radians); each of the three is the sum of a
    term proportional to the sideslip, a term proportional to the rudder
    deflection, with factors looked up at the angle of attack alone, and
    of its own value at zero sideslip and zero rudder. *)
(** The coefficients of an evaluation, down to the table lookups. *)
Ltac build_up :=
  unfold Outcome.CL_value, Outcome.CD_value, Outcome.CM_value,
    Outcome.CY_value, Outcome.Cl_value, Outcome.CN_value,
    Spec.CL_model, Spec.CD_model, Spec.CM_model,
    Spec.CY_model, Spec.Cl_model, Spec.CN_model, Spec.lookup, Spec.lookup2.

(** C7.  With a positive airspeed the lateral-directional routine returns
    and leaves in [CY], [Cl] and [CN] the build-up of the specification
    (the rudder deflection in radians); each of the three is the sum of a
    term proportional to the sideslip, a term proportional to the rudder
    deflection, with factors looked up at the angle of attack alone, and
    of its own value at zero sideslip and zero rudder. *)
Theorem C7_lateral_build_up (s : t) (da dr : Q) :
  controls s !! "delta_aileron" = Some da ->
  controls s !! "delta_rudder" = Some dr ->
  0 < TAS s ->
  let a := rad2deg (alpha s) in
  exists s',
    _calculate_aero_lat_forces_moments_coeffs s = (s', inr tt)
    /\ CY s' = Spec.CY_model a (beta s) dr (span s) (TAS s) (p s) (r s)
    /\ Cl s' = Spec.Cl_model a (rad2deg da) (beta s) dr (span s) (TAS s)
                 (p s) (r s)
    /\ CN s' = Some (Spec.CN_model a (rad2deg da) (beta s) dr (span s)
                       (TAS s) (p s) (r s))
    /\ CY s' == interp a alpha_data CY_beta_data * beta s
                + interp a alpha_data CY_delta_rud_data * dr
                + Spec.CY_model a 0 0 (span s) (TAS s) (p s) (r s)
    /\ Cl s' == interp a alpha_data Cl_beta_data * beta s
                + interp a alpha_data Cl_delta_rud_data * dr
                + Spec.Cl_model a (rad2deg da) 0 0 (span s) (TAS s) (p s)
                    (r s)
    /\ (forall cn, CN s' = Some cn ->
          cn == interp a alpha_data CN_beta_data * beta s
                + interp a alpha_data CN_delta_rud_data * dr
                + Spec.CN_model a (rad2deg da) 0 0 (span s) (TAS s) (p s)
                    (r s)).
Proof.
  intros Hda Hdr HV a.
  assert (HV0 : ~ TAS s == 0) by lra.
  exists (Outcome.after_lat s da dr s).
  split; [exact (lat_returns s da dr Hda Hdr HV0)|].
  split; [reflexivity|]. split; [reflexivity|]. split; [reflexivity|].
  fields. build_up. fold a. unfold Qdiv.
  split; [ring|]. split; [ring|].
  intros cn [= <-]. ring.
Qed.

Lemma C7_witness :
  exists s',
    _calculate_aero_lat_forces_moments_coeffs Scenario.cruise = (s', inr tt)
    /\ CY s' = Spec.CY_model (rad2deg 0.05) 0.01 0.01 (35.8 * 0.3048) 60
                 0.01 (-0.01)
    /\ CN s' = Some (Spec.CN_model (rad2deg 0.05) (rad2deg 0.03) 0.01 0.01
                       (35.8 * 0.3048) 60 0.01 (-0.01)).
Proof.
  destruct (C7_lateral_build_up Scenario.cruise 0.03 0.01)
    as (s' & Hrun & HCY & _ & HCN & _); try reflexivity.
  exists s'. repeat split; assumption.
Defined.

(** ** Thrust and aggregation *)

(** C8, for the states the aggregator returns on.  For every throttle setting the thrust coefficient is
    0.031 times the throttle and the thrust force is (q_inf Sw Ct, 0, 0);
    for every state with a non-zero airspeed the aggregator returns, and
    stores, the total force 10 Ft + Fg + (-D, Y, -L) and the total moment
    (l, m, n), for the aerodynamic forces and moments L, D, Y, l, m, n of
    the same evaluation. *)
Theorem C8_thrust_and_aggregation (s : t) (dt de da dr : Q) :
  controls s !! "delta_t" = Some dt ->
  controls s !! "delta_elevator" = Some de ->
  controls s !! "delta_aileron" = Some da ->
  controls s !! "delta_rudder" = Some dr ->
  exists s1 Ft,
    _calculate_thrust_forces_moments s = (s1, inr Ft)
    /\ Ct s1 = Spec.k_t * dt
    /\ Ft = (q_inf s * Sw s * Ct s1, 0, 0)
    /\ (~ TAS s == 0 ->
        exists s2 L D Y l m n s3,
          _calculate_aero_forces_moments s1 = (s2, inr (L, D, Y, l, m, n))
          /\ calculate_forces_and_moments s
             = (s3, inr (vadd (vadd (vscale 10 Ft) (gravity_force s))
                              (- D, Y, - L),
                         (l, m, n)))
          /\ total_forces s3
             = Spec.total_force Ft (gravity_force s) (Spec.aero_force L D Y)
          /\ total_moments s3 = (l, m, n)).
Proof.
  intros Hdt Hde Hda Hdr.
  exists (Outcome.after_thrust s dt), (Outcome.Ft s dt).
  split; [exact (thrust_returns s dt Hdt)|].
  split; [reflexivity|]. split; [reflexivity|].
  intros HV.
  exists (Outcome.after_lat s da dr (Outcome.after_lon s de
                                       (Outcome.after_thrust s dt))),
    (Outcome.L s de), (Outcome.D s de), (Outcome.Y s dr),
    (Outcome.l s da dr), (Outcome.m s de), (Outcome.n s da dr),
    (Outcome.final s dt de da dr).
  split.
  - assert (Hde' : controls (Outcome.after_thrust s dt) !! "delta_elevator"
                   = Some de) by exact Hde.
    assert (Hda' : controls (Outcome.after_thrust s dt) !! "delta_aileron"
                   = Some da) by exact Hda.
    assert (Hdr' : controls (Outcome.after_thrust s dt) !! "delta_rudder"
                   = Some dr) by exact Hdr.
    assert (HV' : ~ TAS (Outcome.after_thrust s dt) == 0) by exact HV.
    rewrite (aero_returns (Outcome.after_thrust s dt) de da dr
               Hde' Hda' Hdr' HV').
    fields. exact eq_refl.
  - split; [exact (calc_returns s dt de da dr Hdt Hde Hda Hdr HV)|].
    split; reflexivity.
Qed.

Lemma C8_witness :
  exists s1 Ft L D Y l m n s3,
    _calculate_thrust_forces_moments Scenario.cruise = (s1, inr Ft)
    /\ Ct s1 = 0.031 * 0.6
    /\ calculate_forces_and_moments Scenario.cruise
       = (s3, inr (vadd (vadd (vscale 10 Ft) (0, 0, 10234)) (- D, Y, - L),
                   (l, m, n))).
Proof.
  destruct (C8_thrust_and_aggregation Scenario.cruise 0.6 (-0.02) 0.03 0.01)
    as (s1 & Ft & Hthrust & HCt & _ & Hagg); try reflexivity.
  destruct Hagg as (s2 & L & D & Y & l & m & n & s3 & _ & Hcalc & _).
  { intros H. discriminate H. }
  exists s1, Ft, L, D, Y, l, m, n, s3.
  split; [exact Hthrust|]. split; [exact HCt|exact Hcalc].
Defined.

(** C8 as stated fails where the airspeed is zero: on the aircraft as
    constructed ([TAS = 0]) with every control set, the aggregator raises
    [ZeroDivisionError] and returns no force or moment. *)
Lemma C8_parked_raises :
  TAS Scenario.parked = 0
  /\ controls Scenario.parked !! "delta_t" = Some 0
  /\ snd (calculate_forces_and_moments Scenario.parked)
     = inl ZeroDivisionError.
Proof. vm_compute. repeat split. Qed.

(** The values an evaluation returns, down to the table lookups. *)
Ltac outcome :=
  unfold Outcome.final, Outcome.forces, Outcome.moments, Outcome.Ft,
    Outcome.L, Outcome.D, Outcome.Y, Outcome.l, Outcome.m, Outcome.n,
    Outcome.after_thrust, Outcome.after_lon, Outcome.after_lat;
  build_up; fields.

(** C5, for what does scale with the dynamic pressure.  With a positive
    airspeed, doubling the dynamic pressure and nothing else leaves the six
    coefficients as they are and doubles the thrust force, the aerodynamic
    forces and moments L, D, Y, l, m, n and every component of the total
    moment; the total force doubles in its thrust and aerodynamic parts
    only: at twice the dynamic pressure it is twice the total force less
    the gravity force. *)
Theorem C5_doubling_dynamic_pressure (s : t) (dt de da dr : Q) :
  controls s !! "delta_t" = Some dt ->
  controls s !! "delta_elevator" = Some de ->
  controls s !! "delta_aileron" = Some da ->
  controls s !! "delta_rudder" = Some dr ->
  0 < TAS s ->
  let s2 := set_q_inf (2 * q_inf s) s in
  exists a a2 L D Y l m n L2 D2 Y2 l2 m2 n2 e F M e2 F2 M2 t1 Ft t2 Ft2,
    _calculate_aero_forces_moments s = (a, inr (L, D, Y, l, m, n))
    /\ _calculate_aero_forces_moments s2
       = (a2, inr (L2, D2, Y2, l2, m2, n2))
    /\ (CL a2 = CL a /\ CD a2 = CD a /\ CM a2 = CM a
        /\ CY a2 = CY a /\ Cl a2 = Cl a /\ CN a2 = CN a)
    /\ (L2 == 2 * L /\ D2 == 2 * D /\ Y2 == 2 * Y
        /\ l2 == 2 * l /\ m2 == 2 * m /\ n2 == 2 * n)
    /\ _calculate_thrust_forces_moments s = (t1, inr Ft)
    /\ _calculate_thrust_forces_moments s2 = (t2, inr Ft2)
    /\ veq Ft2 (vscale 2 Ft)
    /\ calculate_forces_and_moments s = (e, inr (F, M))
    /\ calculate_forces_and_moments s2 = (e2, inr (F2, M2))
    /\ veq M2 (vscale 2 M)
    /\ veq (vadd F2 (gravity_force s)) (vscale 2 F).
Proof.
  intros Hdt Hde Hda Hdr HV s2.
  assert (HV0 : ~ TAS s == 0) by lra.
  assert (Hdt2 : controls s2 !! "delta_t" = Some dt) by exact Hdt.
  assert (Hde2 : controls s2 !! "delta_elevator" = Some de) by exact Hde.
  assert (Hda2 : controls s2 !! "delta_aileron" = Some da) by exact Hda.
  assert (Hdr2 : controls s2 !! "delta_rudder" = Some dr) by exact Hdr.
  assert (HV2 : ~ TAS s2 == 0) by exact HV0.
  do 24 eexists.
  split; [exact (aero_returns s de da dr Hde Hda Hdr HV0)|].
  split; [exact (aero_returns s2 de da dr Hde2 Hda2 Hdr2 HV2)|].
  split; [repeat split|].
  split.
  { subst s2. outcome. repeat split; ring. }
  split; [exact (thrust_returns s dt Hdt)|].
  split; [exact (thrust_returns s2 dt Hdt2)|].
  split.
  { subst s2. outcome. cbv [veq vscale]. repeat split; ring. }
  split; [exact (calc_returns s dt de da dr Hdt Hde Hda Hdr HV0)|].
  split; [exact (calc_returns s2 dt de da dr Hdt2 Hde2 Hda2 Hdr2 HV2)|].
  subst s2. outcome.
  destruct (gravity_force s) as [[g1 g2] g3].
  cbv [veq vscale vadd]. repeat split; ring.
Qed.

Lemma C5_witness :
  exists e F M e2 F2 M2,
    calculate_forces_and_moments Scenario.cruise = (e, inr (F, M))
    /\ calculate_forces_and_moments
         (set_q_inf (2 * q_inf Scenario.cruise) Scenario.cruise)
       = (e2, inr (F2, M2))
    /\ veq M2 (vscale 2 M)
    /\ veq (vadd F2 (0, 0, 10234)) (vscale 2 F).
Proof.
  destruct (C5_doubling_dynamic_pressure Scenario.cruise 0.6 (-0.02) 0.03
              0.01)
    as (a & a2 & L & D & Y & l & m & n & L2 & D2 & Y2 & l2 & m2 & n2
        & e & F & M & e2 & F2 & M2 & t1 & Ft & t2 & Ft2 & H);
    try reflexivity.
  destruct H as (_ & _ & _ & _ & _ & _ & _ & Hc & Hc2 & HM & HF).
  exists e, F, M, e2, F2, M2. repeat split; assumption.
Defined.

(** C5 as stated fails on the total force: in the cruise condition, whose
    gravity force is (0, 0, 10234), the total force at twice the dynamic
    pressure is not twice the total force. *)
Lemma C5_total_force_not_doubled :
  exists e F M e2 F2 M2,
    0 < TAS Scenario.cruise
    /\ calculate_forces_and_moments Scenario.cruise = (e, inr (F, M))
    /\ calculate_forces_and_moments
         (set_q_inf (2 * q_inf Scenario.cruise) Scenario.cruise)
       = (e2, inr (F2, M2))
    /\ ~ veq F2 (vscale 2 F).
Proof.
  do 6 eexists. split; [reflexivity|].
  split.
  { apply (calc_returns Scenario.cruise 0.6 (-0.02) 0.03 0.01);
      try reflexivity.
    intros H; discriminate H. }
  split.
  { apply (calc_returns (set_q_inf (2 * q_inf Scenario.cruise)
                           Scenario.cruise) 0.6 (-0.02) 0.03 0.01);
      try reflexivity.
    intros H; discriminate H. }
  intros H. apply veq_third in H. revert H.
  apply not_true_iff_false. vm_compute. reflexivity.
Qed.

(** ** Airspeed *)

(** The constructor leaves no throttle in [controls]: until the caller sets
    ["delta_t"], an evaluation raises [KeyError], whatever the airspeed. *)
Lemma evaluation_needs_throttle (s : t) :
  controls s !! "delta_t" = None ->
  calculate_forces_and_moments s = (s, inl (KeyError "delta_t")).
Proof.
  intros Hdt. unfold calculate_forces_and_moments.
  cbv beta iota zeta delta [bind get].
  rewrite (thrust_raises s Hdt). reflexivity.
Qed.

Lemma fresh_has_no_throttle (ft2m lbs2kg slugft2_2_kgm2 : Q) :
  controls (__init__ ft2m lbs2kg slugft2_2_kgm2) !! "delta_t" = None.
Proof. reflexivity. Qed.

(** C2, for the airspeed check the code has.  With every control set, the evaluation returns a
    force and a moment for every non-zero airspeed, negative ones included
    (so for every positive airspeed), and raises for a zero airspeed only:
    the division by 2 V raises [ZeroDivisionError]; there is no
    [InvalidState] condition. *)
Theorem C2_airspeed (s : t) (dt de da dr : Q) :
  controls s !! "delta_t" = Some dt ->
  controls s !! "delta_elevator" = Some de ->
  controls s !! "delta_aileron" = Some da ->
  controls s !! "delta_rudder" = Some dr ->
  (~ TAS s == 0 ->
     exists s' F M, calculate_forces_and_moments s = (s', inr (F, M)))
  /\ (0 < TAS s ->
     exists s' F M, calculate_forces_and_moments s = (s', inr (F, M)))
  /\ (TAS s == 0 ->
     exists s', calculate_forces_and_moments s
                = (s', inl ZeroDivisionError))
  /\ (forall s' e, calculate_forces_and_moments s = (s', inl e) ->
        e = ZeroDivisionError /\ TAS s == 0).
Proof.
  intros Hdt Hde Hda Hdr.
  assert (Hret : ~ TAS s == 0 ->
     exists s' F M, calculate_forces_and_moments s = (s', inr (F, M))).
  { intros HV. do 3 eexists.
    exact (calc_returns s dt de da dr Hdt Hde Hda Hdr HV). }
  split; [exact Hret|]. split; [intros HV; apply Hret; lra|].
  split.
  - intros HV. eexists. exact (calc_raises_zero s dt de Hdt Hde HV).
  - intros s' e Hrun. destruct (Qeq_dec (TAS s) 0) as [HV|HV].
    + rewrite (calc_raises_zero s dt de Hdt Hde HV) in Hrun.
      injection Hrun as _ <-. split; [reflexivity | exact HV].
    + rewrite (calc_returns s dt de da dr Hdt Hde Hda Hdr HV) in Hrun.
      discriminate Hrun.
Qed.

Lemma C2_witness :
  (exists s' F M,
      calculate_forces_and_moments Scenario.cruise = (s', inr (F, M)))
  /\ (exists s',
      calculate_forces_and_moments Scenario.parked
      = (s', inl ZeroDivisionError)).
Proof.
  split.
  - destruct (C2_airspeed Scenario.cruise 0.6 (-0.02) 0.03 0.01)
      as (_ & H & _); try reflexivity.
    apply H. reflexivity.
  - destruct (C2_airspeed Scenario.parked 0 0 0 0) as (_ & _ & H & _);
      try reflexivity.
    apply H. reflexivity.
Defined.

(** C2 as stated fails for a negative airspeed: moving backwards at 1 m/s
    the evaluation returns a force and a moment; and at zero airspeed what
    is raised is [ZeroDivisionError]. *)
Lemma C2_negative_airspeed_returns :
  TAS Scenario.reversing < 0
  /\ (exists s' F M,
        calculate_forces_and_moments Scenario.reversing
        = (s', inr (F, M)))
  /\ TAS Scenario.parked == 0
  /\ snd (calculate_forces_and_moments Scenario.parked)
     = inl ZeroDivisionError.
Proof.
  split; [reflexivity|]. split.
  - do 3 eexists.
    apply (calc_returns Scenario.reversing 0 0 0 0); try reflexivity.
    intros H; discriminate H.
  - split; [reflexivity|].
    rewrite (calc_raises_zero Scenario.parked 0 0); reflexivity.
Qed.

(** ** The zero state *)

(** The table lookups of the longitudinal build-up at zero angle of attack
    and zero elevator. *)
Lemma zero_lookups :
  interp (rad2deg 0) alpha_data CL_data == 0.148
  /\ interp (rad2deg 0) delta_elev_data CL_delta_elev_data == 0
  /\ interp (rad2deg 0) alpha_data CD_data == 0.03
  /\ bispev (RectBivariateSpline delta_elev_data alpha_data
               CD_delta_elev_data) (rad2deg 0) (rad2deg 0) == 0
  /\ interp (rad2deg 0) alpha_data CM_data == 0.0075
  /\ interp (rad2deg 0) delta_elev_data CM_delta_elev_data == -0.0002.
Proof.
  split; [vm_compute; reflexivity|]. split; [vm_compute; reflexivity|].
  split; [vm_compute; reflexivity|]. split; [vm_compute; reflexivity|].
  split; vm_compute; reflexivity.
Qed.

(** C1, with the pitching moment of the tables.  In the zero state, at any positive airspeed, one
    evaluation leaves CL = 0.148, CD = 0.03 and CM = 0.0073: the pitching
    moment tabulated at zero angle of attack, 0.0075, plus the elevator
    increment tabulated at zero deflection, -0.0002. *)
Theorem C1_zero_state (s : t) (dt : Q) :
  controls s !! "delta_t" = Some dt ->
  controls s !! "delta_elevator" = Some 0 ->
  controls s !! "delta_aileron" = Some 0 ->
  controls s !! "delta_rudder" = Some 0 ->
  alpha s = 0 -> beta s = 0 -> alpha_dot s = 0 ->
  p s = 0 -> q s = 0 -> r s = 0 ->
  0 < TAS s ->
  exists s' F M cm,
    calculate_forces_and_moments s = (s', inr (F, M))
    /\ CL s' == 0.148 /\ CD s' == 0.03
    /\ CM s' = Some cm /\ cm == 0.0073.
Proof.
  intros Hdt Hde Hda Hdr Ha Hb Had Hp Hq Hr HV.
  assert (HV0 : ~ TAS s == 0) by lra.
  destruct zero_lookups as (HCL & HCLe & HCD & HCDe & HCM & HCMe).
  exists (Outcome.final s dt 0 0 0), (Outcome.forces s dt 0 0),
    (Outcome.moments s 0 0 0), (Outcome.CM_value s 0).
  split; [exact (calc_returns s dt 0 0 0 Hdt Hde Hda Hdr HV0)|].
  split; [|split; [|split; [reflexivity|]]];
    outcome; rewrite Ha, ?Had, ?Hq.
  - rewrite HCL, HCLe. unfold Qdiv. ring.
  - rewrite HCD, HCDe. ring.
  - rewrite HCM, HCMe. unfold Qdiv. ring.
Qed.

Lemma C1_witness :
  exists s' F M cm,
    calculate_forces_and_moments (Scenario.zero_state 50)
    = (s', inr (F, M))
    /\ CL s' == 0.148 /\ CD s' == 0.03
    /\ CM s' = Some cm /\ cm == 0.0073.
Proof.
  apply (C1_zero_state (Scenario.zero_state 50) 0); reflexivity.
Defined.

(** C1 as stated fails on the pitching moment: in the zero state at 50 m/s
    the evaluation leaves a CM that is not -0.0248. *)
Lemma C1_CM_is_not_table_entry :
  exists s' F M cm,
    calculate_forces_and_moments (Scenario.zero_state 50)
    = (s', inr (F, M))
    /\ CM s' = Some cm /\ ~ cm == -0.0248.
Proof.
  exists (Outcome.final (Scenario.zero_state 50) 0 0 0 0),
    (Outcome.forces (Scenario.zero_state 50) 0 0 0),
    (Outcome.moments (Scenario.zero_state 50) 0 0 0),
    (Outcome.CM_value (Scenario.zero_state 50) 0).
  split.
  { apply (calc_returns (Scenario.zero_state 50) 0 0 0 0); try reflexivity.
    intros H; discriminate H. }
  split; [reflexivity|].
  apply Qeq_bool_neq. vm_compute. reflexivity.
Qed.

(** ** The two-dimensional lookups *)

Lemma clamp_idem (lo hi x : Q) :
  lo <= hi -> clamp lo hi (clamp lo hi x) = clamp lo hi x.
Proof.
  intros Hle. unfold clamp.
  destruct (Qltb x lo) eqn:E1.
  - assert (H1 : Qltb lo lo = false) by (apply Qltb_ge; lra).
    assert (H2 : Qltb hi lo = false) by (apply Qltb_ge; lra).
    rewrite H1, H2. reflexivity.
  - destruct (Qltb hi x) eqn:E2.
    + assert (H1 : Qltb hi lo = false) by (apply Qltb_ge; lra).
      assert (H2 : Qltb hi hi = false) by (apply Qltb_ge; lra).
      rewrite H1, H2. reflexivity.
    + rewrite E1, E2. reflexivity.
Qed.

Lemma clamp_clamped_to (lo hi x : Q) :
  lo <= hi -> Spec.clamped_to lo hi x (clamp lo hi x).
Proof.
  intros Hle. unfold Spec.clamped_to, clamp.
  destruct (Qltb x lo) eqn:E1; [|destruct (Qltb hi x) eqn:E2].
  - apply Qltb_lt in E1.
    repeat split; try lra; intros; try reflexivity; lra.
  - apply Qltb_ge in E1. apply Qltb_lt in E2.
    repeat split; try lra; intros; try reflexivity; lra.
  - apply Qltb_ge in E1. apply Qltb_ge in E2.
    repeat split; try lra; intros; try reflexivity; lra.
Qed.

Lemma clamp_below (lo hi x : Q) : lo <= hi -> x < lo -> clamp lo hi x = lo.
Proof. intros Hle H. apply (clamp_clamped_to lo hi x Hle). exact H. Qed.

Lemma clamp_above (lo hi x : Q) : lo <= hi -> hi < x -> clamp lo hi x = hi.
Proof. intros Hle H. apply (clamp_clamped_to lo hi x Hle). exact H. Qed.

(** The knot spans of the two surfaces are the bounds of their grids. *)
Lemma CD_surface_span :
  let S := Spec.CD_delta_elev_surface in
  tb (tx S) (kx S) = -26 /\ te (tx S) (kx S) = 28
  /\ tb (ty S) (ky S) = -7.5 /\ te (ty S) (ky S) = 19.5.
Proof. repeat split. Qed.

Lemma CN_surface_span :
  let S := Spec.CN_delta_aile_surface in
  tb (tx S) (kx S) = -15 /\ te (tx S) (kx S) = 20
  /\ tb (ty S) (ky S) = -7.5 /\ te (ty S) (ky S) = 19.5.
Proof. repeat split. Qed.

Ltac grid_bounds := intros Hbound; discriminate Hbound.

Lemma CD_surface_clamped (u v : Q) :
  bispev Spec.CD_delta_elev_surface u v
  = bispev Spec.CD_delta_elev_surface
      (clamp (-26) 28 u) (clamp (-7.5) 19.5 v).
Proof.
  unfold bispev. destruct CD_surface_span as (-> & -> & -> & ->).
  rewrite !clamp_idem by grid_bounds. reflexivity.
Qed.

Lemma CN_surface_clamped (u v : Q) :
  bispev Spec.CN_delta_aile_surface u v
  = bispev Spec.CN_delta_aile_surface
      (clamp (-15) 20 u) (clamp (-7.5) 19.5 v).
Proof.
  unfold bispev. destruct CN_surface_span as (-> & -> & -> & ->).
  rewrite !clamp_idem by grid_bounds. reflexivity.
Qed.

(** The lookup is the surface at the clamped query. *)
Lemma CD_surface_at_clamp (u v : Q) :
  bispev Spec.CD_delta_elev_surface u v
  = fpbisp_at Spec.CD_delta_elev_surface
      (clamp (-26) 28 u) (clamp (-7.5) 19.5 v).
Proof.
  unfold bispev. destruct CD_surface_span as (-> & -> & -> & ->).
  reflexivity.
Qed.

Lemma CN_surface_at_clamp (u v : Q) :
  bispev Spec.CN_delta_aile_surface u v
  = fpbisp_at Spec.CN_delta_aile_surface
      (clamp (-15) 20 u) (clamp (-7.5) 19.5 v).
Proof.
  unfold bispev. destruct CN_surface_span as (-> & -> & -> & ->).
  reflexivity.
Qed.

(** Beyond a corner of the grid the lookup is the corner entry of the
    table. *)
Lemma CD_surface_corners (u v : Q) :
  (u < -26 -> v < -7.5 ->
     bispev Spec.CD_delta_elev_surface u v == 0.0135)
  /\ (u < -26 -> 19.5 < v ->
     bispev Spec.CD_delta_elev_surface u v == -0.00838)
  /\ (28 < u -> v < -7.5 ->
     bispev Spec.CD_delta_elev_surface u v == 0.00273)
  /\ (28 < u -> 19.5 < v ->
     bispev Spec.CD_delta_elev_surface u v == 0.0255).
Proof.
  unfold bispev. destruct CD_surface_span as (-> & -> & -> & ->).
  split; [|split; [|split]]; intros Hu Hv;
    rewrite ?(clamp_below (-26) 28 u), ?(clamp_above (-26) 28 u),
      ?(clamp_below (-7.5) 19.5 v), ?(clamp_above (-7.5) 19.5 v)
      by (assumption || grid_bounds);
    vm_compute; reflexivity.
Qed.

Lemma CN_surface_corners (u v : Q) :
  (u < -15 -> v < -7.5 ->
     bispev Spec.CN_delta_aile_surface u v == -0.004321)
  /\ (u < -15 -> 19.5 < v ->
     bispev Spec.CN_delta_aile_surface u v == 0.01539)
  /\ (20 < u -> v < -7.5 ->
     bispev Spec.CN_delta_aile_surface u v == 0.004321)
  /\ (20 < u -> 19.5 < v ->
     bispev Spec.CN_delta_aile_surface u v == -0.0154).
Proof.
  unfold bispev. destruct CN_surface_span as (-> & -> & -> & ->).
  split; [|split; [|split]]; intros Hu Hv;
    rewrite ?(clamp_below (-15) 20 u), ?(clamp_above (-15) 20 u),
      ?(clamp_below (-7.5) 19.5 v), ?(clamp_above (-7.5) 19.5 v)
      by (assumption || grid_bounds);
    vm_compute; reflexivity.
Qed.

(** The clamp is what keeps the lookup flat: the polynomial piece of the
    surface next to the corner, continued to (-40, -30), has another
    value than the lookup there. *)
Lemma CD_surface_not_extrapolated :
  ~ fpbisp_at Spec.CD_delta_elev_surface (-40) (-30)
    == bispev Spec.CD_delta_elev_surface (-40) (-30).
Proof. apply Qeq_bool_neq. vm_compute. reflexivity. Qed.

(** C3.  Whatever the elevator or aileron deflection and the angle of
    attack, inside the grid or outside, the drag increment of the elevator
    and the yawing moment of the aileron are the fitted surfaces at the
    query clamped to the bounds of the grid, that is at the nearest point
    of the grid rectangle, and the same as the lookup at that point; they
    are not an extrapolation of the spline. *)
Theorem C3_bivariate_lookup_clamped (s : t) (de da dr : Q) :
  controls s !! "delta_elevator" = Some de ->
  controls s !! "delta_aileron" = Some da ->
  controls s !! "delta_rudder" = Some dr ->
  0 < TAS s ->
  let a := rad2deg (alpha s) in
  let a' := clamp (-7.5) 19.5 a in
  let e' := clamp (-26) 28 (rad2deg de) in
  let d' := clamp (-15) 20 (rad2deg da) in
  Spec.clamped_to (-7.5) 19.5 a a'
  /\ Spec.clamped_to (-26) 28 (rad2deg de) e'
  /\ Spec.clamped_to (-15) 20 (rad2deg da) d'
  /\ (exists s',
        _calculate_aero_lon_forces_moments_coeffs s = (s', inr tt)
        /\ CD s' = interp a alpha_data CD_data
                   + fpbisp_at Spec.CD_delta_elev_surface e' a'
        /\ CD s' = interp a alpha_data CD_data
                   + bispev Spec.CD_delta_elev_surface e' a')
  /\ (exists s' yaw,
        _calculate_aero_lat_forces_moments_coeffs s = (s', inr tt)
        /\ CN s' = Some (interp a alpha_data CN_beta_data * beta s
                         + yaw
                         + interp a alpha_data CN_delta_rud_data * dr
                         + span s / (2 * TAS s)
                           * (interp a alpha_data CN_p_data * p s
                              + interp a alpha_data CN_r_data * r s))
        /\ yaw = fpbisp_at Spec.CN_delta_aile_surface d' a'
        /\ yaw = bispev Spec.CN_delta_aile_surface d' a').
Proof.
  intros Hde Hda Hdr HV a a' e' d'.
  assert (HV0 : ~ TAS s == 0) by lra.
  split; [apply clamp_clamped_to; grid_bounds|].
  split; [apply clamp_clamped_to; grid_bounds|].
  split; [apply clamp_clamped_to; grid_bounds|].
  split.
  - exists (Outcome.after_lon s de s).
    split; [exact (lon_returns s de Hde HV0)|].
    subst a' e'. split.
    + rewrite <- CD_surface_at_clamp. reflexivity.
    + rewrite <- CD_surface_clamped. reflexivity.
  - exists (Outcome.after_lat s da dr s),
      (bispev Spec.CN_delta_aile_surface (rad2deg da) a).
    split; [exact (lat_returns s da dr Hda Hdr HV0)|].
    split; [reflexivity|].
    subst a' d'. split.
    + apply CN_surface_at_clamp.
    + apply CN_surface_clamped.
Qed.

Lemma C3_witness :
  exists s' yaw,
    _calculate_aero_lat_forces_moments_coeffs
      (Scenario.aileron_state 30 (-30)) = (s', inr tt)
    /\ CN s' = Some (interp (rad2deg (-30 / rad2deg_factor)) alpha_data
                       CN_beta_data * 0
                     + yaw
                     + interp (rad2deg (-30 / rad2deg_factor)) alpha_data
                         CN_delta_rud_data * 0
                     + (35.8 * 0.3048) / (2 * 50)
                       * (interp (rad2deg (-30 / rad2deg_factor)) alpha_data
                            CN_p_data * 0
                          + interp (rad2deg (-30 / rad2deg_factor))
                              alpha_data CN_r_data * 0))
    /\ yaw == 0.004321.
Proof.
  destruct (C3_bivariate_lookup_clamped (Scenario.aileron_state 30 (-30))
              0 (30 / rad2deg_factor) 0 eq_refl eq_refl eq_refl eq_refl)
    as (_ & _ & _ & _ & s' & yaw & Hrun & HCN & Hyaw & _).
  exists s', yaw. split; [exact Hrun|]. split; [exact HCN|].
  rewrite Hyaw. vm_compute. reflexivity.
Defined.

(** ** Aileron deflections of -5 and +5 degrees *)

Lemma aileron_rows_checked :
  forallb (Scenario.aileron_rows_agree Spec.CN_delta_aile_surface)
    Scenario.aileron_rows = true.
Proof. vm_compute. reflexivity. Qed.

Lemma combine_lookup {A B : Type} (xs : list A) : forall (ys : list B) j x y,
  xs !! j = Some x -> ys !! j = Some y -> combine xs ys !! j = Some (x, y).
Proof.
  induction xs as [|x0 xs IH]; intros ys j x y Hx Hy; [discriminate|].
  destruct ys as [|y0 ys]; [discriminate|].
  destruct j as [|j]; simpl in Hx, Hy.
  - injection Hx as <-. injection Hy as <-. reflexivity.
  - simpl. eapply IH; eassumption.
Qed.

Lemma lookup_In {A : Type} (l : list A) : forall j x,
  l !! j = Some x -> In x l.
Proof.
  induction l as [|x0 l IH]; intros j x Hx; [discriminate|].
  destruct j as [|j]; simpl in Hx.
  - injection Hx as <-. left. reflexivity.
  - right. eapply IH; eassumption.
Qed.

Lemma table_entry_row (matrix : list (list Q)) (i j : nat) (v : Q) :
  Scenario.table_entry matrix i j = Some v -> nth i matrix [] !! j = Some v.
Proof.
  unfold Scenario.table_entry. intros H.
  destruct (matrix !! i) as [row|] eqn:Hrow; [|discriminate].
  rewrite (nth_lookup_Some _ _ [] _ Hrow). exact H.
Qed.

Lemma aileron_rows_lookup (j : nat) (a tm tp : Q) :
  alpha_data !! j = Some a ->
  Scenario.table_entry CN_delta_aile_data 2 j = Some tm ->
  Scenario.table_entry CN_delta_aile_data 5 j = Some tp ->
  In (a, (tm, tp)) Scenario.aileron_rows.
Proof.
  intros Ha Hm Hp. apply (lookup_In _ j).
  unfold Scenario.aileron_rows. apply combine_lookup; [exact Ha|].
  apply combine_lookup; apply table_entry_row; assumption.
Qed.

Lemma aileron_rows_agree_at (j : nat) (a tm tp : Q) :
  alpha_data !! j = Some a ->
  Scenario.table_entry CN_delta_aile_data 2 j = Some tm ->
  Scenario.table_entry CN_delta_aile_data 5 j = Some tp ->
  Scenario.aileron_rows_agree Spec.CN_delta_aile_surface (a, (tm, tp))
  = true.
Proof.
  intros Ha Hm Hp.
  apply (proj1 (forallb_forall _ _) aileron_rows_checked).
  exact (aileron_rows_lookup j a tm tp Ha Hm Hp).
Qed.

(** The yawing-moment coefficient when only the aileron is deflected. *)
Lemma CN_of_aileron_alone (s : t) (da_deg a_deg : Q) :
  Scenario.zero_but_aileron s da_deg a_deg ->
  exists e c,
    _calculate_aero_lat_forces_moments_coeffs s = (e, inr tt)
    /\ CN e = Some c
    /\ c == bispev Spec.CN_delta_aile_surface
              (rad2deg (da_deg / rad2deg_factor))
              (rad2deg (a_deg / rad2deg_factor)).
Proof.
  intros (Ha & Hb & Hp & Hr & Hda & Hdr & HV).
  assert (HV0 : ~ TAS s == 0) by lra.
  exists (Outcome.after_lat s (da_deg / rad2deg_factor) 0 s),
    (Outcome.CN_value s (da_deg / rad2deg_factor) 0).
  split; [exact (lat_returns s _ 0 Hda Hdr HV0)|].
  split; [reflexivity|].
  build_up. rewrite Ha, Hb, Hp, Hr.
  unfold Spec.CN_delta_aile_surface, Qdiv. ring.
Qed.

(** C4, for the rows of the table.  At every tabulated angle of attack, with the aileron
    alone deflected, the yawing-moment coefficient at -5 degrees is the
    entry of the table row for -5 degrees and the coefficient at +5
    degrees is the entry of the row for +5 degrees; the two have opposite
    signs, and they are not opposite numbers. *)
Theorem C4_aileron_five_degrees (s_minus s_plus : t) (j : nat)
    (a tm tp : Q) :
  alpha_data !! j = Some a ->
  Scenario.table_entry CN_delta_aile_data 2 j = Some tm ->
  Scenario.table_entry CN_delta_aile_data 5 j = Some tp ->
  Scenario.zero_but_aileron s_minus (-5) a ->
  Scenario.zero_but_aileron s_plus 5 a ->
  delta_aile_data !! 2%nat = Some (-5)
  /\ delta_aile_data !! 5%nat = Some 5
  /\ exists e1 e2 c1 c2,
       _calculate_aero_lat_forces_moments_coeffs s_minus = (e1, inr tt)
       /\ _calculate_aero_lat_forces_moments_coeffs s_plus = (e2, inr tt)
       /\ CN e1 = Some c1 /\ CN e2 = Some c2
       /\ c1 == tm /\ c2 == tp
       /\ c1 * c2 < 0
       /\ ~ c1 == - c2.
Proof.
  intros Ha Hm Hp Hminus Hplus.
  split; [reflexivity|]. split; [reflexivity|].
  destruct (CN_of_aileron_alone s_minus (-5) a Hminus)
    as (e1 & c1 & Hrun1 & HCN1 & Hc1).
  destruct (CN_of_aileron_alone s_plus 5 a Hplus)
    as (e2 & c2 & Hrun2 & HCN2 & Hc2).
  pose proof (aileron_rows_agree_at j a tm tp Ha Hm Hp) as Hrow.
  unfold Scenario.aileron_rows_agree in Hrow.
  apply andb_prop in Hrow. destruct Hrow as [Hrow Hneq].
  apply andb_prop in Hrow. destruct Hrow as [Hrow Hsign].
  apply andb_prop in Hrow. destruct Hrow as [Hem Hep].
  apply Qeq_bool_iff in Hem. apply Qeq_bool_iff in Hep.
  apply Qltb_lt in Hsign. apply negb_true_iff in Hneq.
  apply Qeq_bool_neq in Hneq.
  exists e1, e2, c1, c2.
  split; [exact Hrun1|]. split; [exact Hrun2|].
  split; [exact HCN1|]. split; [exact HCN2|].
  assert (H1 : c1 == tm) by (rewrite Hc1; exact Hem).
  assert (H2 : c2 == tp) by (rewrite Hc2; exact Hep).
  split; [exact H1|]. split; [exact H2|].
  split; [rewrite H1, H2; exact Hsign|].
  rewrite H1, H2. exact Hneq.
Qed.

Lemma C4_witness :
  exists e1 e2 c1 c2,
    _calculate_aero_lat_forces_moments_coeffs
      (Scenario.aileron_state (-5) 2.5) = (e1, inr tt)
    /\ _calculate_aero_lat_forces_moments_coeffs
         (Scenario.aileron_state 5 2.5) = (e2, inr tt)
    /\ CN e1 = Some c1 /\ CN e2 = Some c2
    /\ c1 == 0.00173 /\ c2 == -0.00086.
Proof.
  destruct (C4_aileron_five_degrees (Scenario.aileron_state (-5) 2.5)
              (Scenario.aileron_state 5 2.5) 4 2.5 0.00173 (-0.00086))
    as (_ & _ & e1 & e2 & c1 & c2 & H1 & H2 & H3 & H4 & H5 & H6 & _);
    try reflexivity.
  - repeat split.
  - repeat split.
  - exists e1, e2, c1, c2. repeat split; assumption.
Defined.

(** C4 as stated fails: at zero angle of attack, with the aileron alone
    deflected, the yawing-moment coefficient at -5 degrees (0.0007675) is
    not the negative of the coefficient at +5 degrees (-0.000384). *)
Lemma C4_not_antisymmetric :
  exists e1 e2 c1 c2,
    _calculate_aero_lat_forces_moments_coeffs
      (Scenario.aileron_state (-5) 0) = (e1, inr tt)
    /\ _calculate_aero_lat_forces_moments_coeffs
         (Scenario.aileron_state 5 0) = (e2, inr tt)
    /\ CN e1 = Some c1 /\ CN e2 = Some c2
    /\ ~ c1 == - c2.
Proof.
  do 4 eexists.
  split.
  { apply (lat_returns (Scenario.aileron_state (-5) 0)
             (-5 / rad2deg_factor) 0); try reflexivity.
    intros H; discriminate H. }
  split.
  { apply (lat_returns (Scenario.aileron_state 5 0)
             (5 / rad2deg_factor) 0); try reflexivity.
    intros H; discriminate H. }
  split; [reflexivity|]. split; [reflexivity|].
  apply Qeq_bool_neq. vm_compute. reflexivity.
Qed.

(** ** Attributes no method assigns *)

Section Frame.

(** A property of the instance that every assignment of the methods
    maintains is maintained by the methods, raise or return. *)
Variable P : t -> Prop.

Lemma preserves_ret {A : Type} (a : A) : preserves P (ret a).
Proof. intros s Hs. exact Hs. Qed.

Lemma preserves_raise {A : Type} (e : exn) : preserves P (@raise t A e).
Proof. intros s Hs. exact Hs. Qed.

Lemma preserves_get : preserves P get.
Proof. intros s Hs. exact Hs. Qed.

Lemma preserves_getitem (d : gmap string Q) (key : string) :
  preserves P (getitem d key).
Proof. intros s Hs. unfold getitem. destruct (d !! key); exact Hs. Qed.

Lemma preserves_getattr (name : string) (v : option Q) :
  preserves P (getattr name v).
Proof. intros s Hs. unfold getattr. destruct v; exact Hs. Qed.

Lemma preserves_truediv (a b : Q) : preserves P (truediv a b).
Proof. intros s Hs. unfold truediv. destruct (Qeq_bool b 0); exact Hs. Qed.

Lemma preserves_modify (f : t -> t) :
  (forall s, P s -> P (f s)) -> preserves P (modify f).
Proof. intros Hf s Hs. apply Hf. exact Hs. Qed.

Lemma preserves_bind {A B : Type} (m : M t A) (k : A -> M t B) :
  preserves P m -> (forall a, preserves P (k a)) -> preserves P (bind m k).
Proof.
  intros Hm Hk s Hs. unfold bind. specialize (Hm s Hs).
  destruct (m s) as [s' [e|a]]; simpl in *.
  - exact Hm.
  - apply Hk. exact Hm.
Qed.

End Frame.

Create HintDb frame.

#[local] Hint Resolve preserves_ret preserves_raise preserves_get
  preserves_getitem preserves_getattr preserves_truediv : frame.

(** The methods are sequences of the steps above. *)
Ltac frame_steps :=
  repeat first
    [ apply preserves_bind; [|intros ?; cbv beta zeta]
    | apply preserves_modify; intros ? [? ?]; split; assumption
    | solve [auto with frame] ].

Section CmCn.

Variables cm cn : Q.

Lemma lon_keeps :
  preserves (keeps_Cm_Cn cm cn) _calculate_aero_lon_forces_moments_coeffs.
Proof. unfold _calculate_aero_lon_forces_moments_coeffs. frame_steps. Qed.

Lemma lat_keeps :
  preserves (keeps_Cm_Cn cm cn) _calculate_aero_lat_forces_moments_coeffs.
Proof. unfold _calculate_aero_lat_forces_moments_coeffs. frame_steps. Qed.

Lemma thrust_keeps :
  preserves (keeps_Cm_Cn cm cn) _calculate_thrust_forces_moments.
Proof. unfold _calculate_thrust_forces_moments. frame_steps. Qed.

Lemma aero_keeps :
  preserves (keeps_Cm_Cn cm cn) _calculate_aero_forces_moments.
Proof.
  pose proof lon_keeps. pose proof lat_keeps.
  unfold _calculate_aero_forces_moments. frame_steps.
Qed.

Lemma calc_keeps :
  preserves (keeps_Cm_Cn cm cn) calculate_forces_and_moments.
Proof.
  pose proof thrust_keeps. pose proof aero_keeps.
  unfold calculate_forces_and_moments.
  apply preserves_bind; [assumption|intros Ft].
  apply preserves_bind; [assumption|intros [[[[[L D] Y] l] m] n]].
  frame_steps.
Qed.

End CmCn.

Lemma step_keeps (s : t) (i : inputs) :
  Cm (step s i) = Cm s /\ Cn (step s i) = Cn s.
Proof.
  unfold step.
  apply (calc_keeps (Cm s) (Cn s) (set_inputs i s)). split; reflexivity.
Qed.

Lemma simulate_keeps (steps : list inputs) : forall s,
  Cm (simulate s steps) = Cm s /\ Cn (simulate s steps) = Cn s.
Proof.
  induction steps as [|i steps IH]; intros s; [split; reflexivity|].
  simpl. destruct (IH (step s i)) as [-> ->]. apply step_keeps.
Qed.

(** An evaluation that stops at the zero airspeed, or before, assigns
    neither [CM] nor [CN]. *)
Lemma step_at_rest (s : t) (i : inputs) :
  in_TAS i == 0 -> CM (step s i) = CM s /\ CN (step s i) = CN s.
Proof.
  intros HV. unfold step.
  set (s0 := set_inputs i s).
  assert (HV0 : TAS s0 == 0) by exact HV.
  change (CM s) with (CM s0). change (CN s) with (CN s0).
  destruct (controls s0 !! "delta_t") as [dt|] eqn:Hdt.
  - destruct (controls s0 !! "delta_elevator") as [de|] eqn:Hde.
    + rewrite (calc_raises_zero s0 dt de Hdt Hde HV0). split; reflexivity.
    + unfold calculate_forces_and_moments, _calculate_aero_forces_moments.
      cbv beta iota zeta delta [bind get].
      rewrite (thrust_returns s0 dt Hdt).
      assert (Hde' : controls (Outcome.after_thrust s0 dt)
                       !! "delta_elevator" = None) by exact Hde.
      rewrite (lon_raises_key (Outcome.after_thrust s0 dt) Hde').
      split; reflexivity.
  - rewrite (evaluation_needs_throttle s0 Hdt). split; reflexivity.
Qed.

(** C10.  Starting from a constructed aircraft, after any sequence of
    evaluations, each preceded by the caller's assignments and whether it
    returned or raised, [Cm] and [Cn] still hold the 0 of the constructor;
    the evaluations assign [CM] and [CN] instead: after a further
    evaluation that returns they hold the pitching and yawing moment
    coefficients of that evaluation, and after one that stops at a zero
    airspeed they hold what they held before. *)
Theorem C10_Cm_Cn_never_assigned (ft2m lbs2kg slugft2_2_kgm2 : Q)
    (steps : list inputs) :
  let s := simulate (__init__ ft2m lbs2kg slugft2_2_kgm2) steps in
  Cm s = 0 /\ Cn s = 0
  /\ (forall i, Cm (step s i) = 0 /\ Cn (step s i) = 0)
  /\ (forall i dt de da dr,
        in_controls i !! "delta_t" = Some dt ->
        in_controls i !! "delta_elevator" = Some de ->
        in_controls i !! "delta_aileron" = Some da ->
        in_controls i !! "delta_rudder" = Some dr ->
        ~ in_TAS i == 0 ->
        (exists F M,
           calculate_forces_and_moments (set_inputs i s)
           = (step s i, inr (F, M)))
        /\ CM (step s i)
           = Some (Spec.CM_model (rad2deg (in_alpha i)) (rad2deg de)
                     (chord s) (in_TAS i) (in_alpha_dot i) (in_q i))
        /\ CN (step s i)
           = Some (Spec.CN_model (rad2deg (in_alpha i)) (rad2deg da)
                     (in_beta i) dr (span s) (in_TAS i) (in_p i) (in_r i)))
  /\ (forall i, in_TAS i == 0 ->
        CM (step s i) = CM s /\ CN (step s i) = CN s).
Proof.
  intros s.
  destruct (simulate_keeps steps (__init__ ft2m lbs2kg slugft2_2_kgm2))
    as [HCm HCn].
  change (Cm s = 0) in HCm. change (Cn s = 0) in HCn.
  split; [exact HCm|]. split; [exact HCn|]. split; [|split].
  - intros i. destruct (step_keeps s i) as [-> ->]. split; assumption.
  - intros i dt de da dr Hdt Hde Hda Hdr HV.
    pose proof (calc_returns (set_inputs i s) dt de da dr Hdt Hde Hda Hdr HV)
      as Hrun.
    unfold step. rewrite Hrun. split; [|split].
    + do 2 eexists. reflexivity.
    + reflexivity.
    + reflexivity.
  - intros i. apply step_at_rest.
Qed.

Lemma C10_witness :
  let s := simulate Scenario.fresh
             [Scenario.zero_inputs 0 0; Scenario.cruise_inputs] in
  Cm s = 0 /\ Cn s = 0
  /\ CM (step s Scenario.cruise_inputs)
     = Some (Spec.CM_model (rad2deg 0.05) (rad2deg (-0.02)) (chord s) 60
               0.001 0.02)
  /\ CM (step s (Scenario.zero_inputs 0 0)) = CM s.
Proof.
  intros s.
  destruct (C10_Cm_Cn_never_assigned 0.3048 0.453592 1.3558179
              [Scenario.zero_inputs 0 0; Scenario.cruise_inputs])
    as (HCm & HCn & _ & Hret & Hrest).
  split; [exact HCm|]. split; [exact HCn|]. split.
  - assert (HV : ~ in_TAS Scenario.cruise_inputs == 0)
      by (intros H; discriminate H).
    exact (proj1 (proj2 (Hret Scenario.cruise_inputs 0.6 (-0.02) 0.03 0.01
                           eq_refl eq_refl eq_refl eq_refl HV))).
  - exact (proj1 (Hrest (Scenario.zero_inputs 0 0) (Qeq_refl 0))).
Defined.

(** ** More on [np.interp] *)

(** A point of the chord between two samples. *)
Lemma chord_between (lo hi x0 x1 y0 y1 x : Q) :
  x0 < x1 -> x0 <= x -> x <= x1 ->
  lo <= y0 <= hi -> lo <= y1 <= hi ->
  lo <= (y1 - y0) / (x1 - x0) * (x - x0) + y0 <= hi.
Proof.
  intros H01 Hx0 Hx1 [Hl0 Hh0] [Hl1 Hh1].
  set (w := (x - x0) / (x1 - x0)).
  assert (Hw0 : 0 <= w).
  { unfold w. apply Qle_shift_div_l; lra. }
  assert (Hw1 : w <= 1).
  { unfold w. apply Qle_shift_div_r; lra. }
  assert (E : (y1 - y0) / (x1 - x0) * (x - x0) + y0 == y0 + (y1 - y0) * w).
  { unfold w. field. lra. }
  rewrite E. split; nra.
Qed.

Lemma chord_increasing (x0 x1 y0 y1 x x' : Q) :
  x0 < x1 -> y0 <= y1 -> x <= x' ->
  (y1 - y0) / (x1 - x0) * (x - x0) + y0
  <= (y1 - y0) / (x1 - x0) * (x' - x0) + y0.
Proof.
  intros H01 Hy Hx.
  assert (Hs : 0 <= (y1 - y0) / (x1 - x0)).
  { apply Qle_shift_div_l; lra. }
  nra.
Qed.

Lemma interp_from_within (lo hi : Q) (xp : list Q) : forall fp x0 y0 x,
  increasing_from x0 xp -> length xp = length fp ->
  x0 <= x -> lo <= y0 <= hi -> Table.within lo hi fp ->
  lo <= interp_from x x0 y0 (combine xp fp) <= hi.
Proof.
  induction xp as [|x1 xp IH]; intros fp x0 y0 x Hinc Hlen Hx Hy0 Hfp.
  - destruct fp; [|discriminate]. simpl. exact Hy0.
  - destruct fp as [|y1 fp]; [discriminate|].
    destruct Hinc as [H01 Hinc]. apply Forall_cons in Hfp as [Hy1 Hfp].
    simpl. destruct (Qltb x x1) eqn:E.
    + apply Qltb_lt in E. destruct (Qeq_bool x0 x); [exact Hy0|].
      apply chord_between; auto; lra.
    + apply Qltb_ge in E. apply IH; auto.
Qed.

(** Between two consecutive samples the search stops on their chord. *)
Lemma interp_from_chord (xp : list Q) : forall fp a0 b0 j x0 x1 y0 y1 x,
  increasing_from a0 xp -> length xp = length fp ->
  (a0 :: xp) !! j = Some x0 -> (a0 :: xp) !! S j = Some x1 ->
  (b0 :: fp) !! j = Some y0 -> (b0 :: fp) !! S j = Some y1 ->
  x0 <= x -> x < x1 ->
  interp_from x a0 b0 (combine xp fp)
  == y0 + (y1 - y0) / (x1 - x0) * (x - x0).
Proof.
  induction xp as [|a1 xp IH];
    intros fp a0 b0 j x0 x1 y0 y1 x Hinc Hlen Hx0 Hx1 Hy0 Hy1 Hlo Hhi.
  - destruct j; discriminate.
  - destruct fp as [|b1 fp]; [discriminate|].
    destruct Hinc as [H01 Hinc]. simpl.
    destruct j as [|j]; simpl in Hx0, Hx1, Hy0, Hy1.
    + injection Hx0 as <-. injection Hx1 as <-.
      injection Hy0 as <-. injection Hy1 as <-.
      apply Qltb_lt in Hhi. rewrite Hhi.
      destruct (Qeq_bool a0 x) eqn:E.
      * apply Qeq_bool_iff in E. rewrite <- E. field. lra.
      * ring.
    + assert (Hge : Qltb x a1 = false).
      { apply Qltb_ge. destruct j as [|j]; simpl in Hx0.
        - injection Hx0 as <-. exact Hlo.
        - pose proof (increasing_from_lookup _ _ _ _ Hinc Hx0). lra. }
      rewrite Hge. apply (IH fp a1 b1 j); auto.
Qed.

Lemma increasing_step (xp : list Q) : forall j x0 x1,
  increasing xp -> xp !! j = Some x0 -> xp !! S j = Some x1 -> x0 < x1.
Proof.
  induction xp as [|a0 xp IH]; intros j x0 x1 Hinc H0 H1; [discriminate|].
  destruct j as [|j]; simpl in H0, H1.
  - injection H0 as <-. destruct xp as [|a1 xp]; [discriminate|].
    simpl in H1. injection H1 as <-. exact (proj1 Hinc).
  - destruct xp as [|a1 xp]; [discriminate|].
    apply (IH j); auto. exact (proj2 Hinc).
Qed.

(** X1.  Between two consecutive grid points, ends included, [np.interp]
    is on the chord through the two tabulated values. *)
Theorem X1_interp_linear_between_nodes (xp fp : list Q) (j : nat)
    (x0 x1 y0 y1 x : Q) :
  increasing xp -> length xp = length fp ->
  xp !! j = Some x0 -> xp !! S j = Some x1 ->
  fp !! j = Some y0 -> fp !! S j = Some y1 ->
  x0 <= x -> x <= x1 ->
  interp x xp fp == y0 + (y1 - y0) / (x1 - x0) * (x - x0).
Proof.
  intros Hinc Hlen Hx0 Hx1 Hy0 Hy1 Hlo Hhi.
  pose proof (increasing_step xp j x0 x1 Hinc Hx0 Hx1) as H01.
  destruct (Qlt_le_dec x x1) as [Hlt|Hge].
  - unfold interp.
    destruct xp as [|a0 xp]; [discriminate|].
    destruct fp as [|b0 fp]; [discriminate|]. simpl combine. cbv iota beta.
    assert (Hge : Qltb x a0 = false).
    { apply Qltb_ge. destruct j as [|j]; simpl in Hx0.
      - injection Hx0 as <-. exact Hlo.
      - pose proof (increasing_from_lookup _ _ _ _ Hinc Hx0). lra. }
    rewrite Hge. apply (interp_from_chord xp fp a0 b0 j); auto.
  - assert (E : x == x1) by lra.
    rewrite (interp_node xp fp (S j) x1 y1 x Hinc Hlen Hx1 Hy1 E).
    rewrite E. field. lra.
Qed.

Lemma X1_witness :
  interp 1.25 alpha_data CD_data == 0.03 + (0.036 - 0.03) / (2.5 - 0) * (1.25 - 0)
  /\ interp 1.25 alpha_data CD_data == 0.033.
Proof.
  pose proof (X1_interp_linear_between_nodes alpha_data CD_data 3
                0 2.5 0.03 0.036 1.25 alpha_data_increasing eq_refl
                eq_refl eq_refl eq_refl eq_refl) as H.
  assert (H1 : 0 <= 1.25) by (intros E; discriminate E).
  assert (H2 : 1.25 <= 2.5) by (intros E; discriminate E).
  specialize (H H1 H2). split; [exact H|]. rewrite H. reflexivity.
Defined.

(** X2.  Whatever the query, inside the grid or outside, [np.interp]
    returns a value between the smallest and the largest entry of the
    table: a lookup never leaves the range of its table. *)
Theorem X2_interp_within_table (lo hi : Q) (xp fp : list Q) (x : Q) :
  increasing xp -> length xp = length fp -> xp <> [] ->
  Table.within lo hi fp ->
  lo <= interp x xp fp /\ interp x xp fp <= hi.
Proof.
  intros Hinc Hlen Hne Hfp. unfold interp.
  destruct xp as [|x0 xp]; [contradiction|].
  destruct fp as [|y0 fp]; [discriminate|].
  apply Forall_cons in Hfp as [Hy0 Hfp]. simpl combine. cbv iota beta.
  destruct (Qltb x x0) eqn:E; [exact Hy0|].
  apply Qltb_ge in E. apply interp_from_within; auto.
Qed.

Lemma CD_data_within : Table.within 0.03 0.184 CD_data.
Proof.
  unfold Table.within, CD_data.
  repeat (constructor; [split; intros E; discriminate E|]).
  constructor.
Qed.

Lemma X2_witness :
  0.03 <= interp 12.3 alpha_data CD_data
  /\ interp 12.3 alpha_data CD_data <= 0.184.
Proof.
  apply (X2_interp_within_table 0.03 0.184 alpha_data CD_data 12.3).
  - exact alpha_data_increasing.
  - reflexivity.
  - discriminate.
  - exact CD_data_within.
Defined.

(** In its first interval the search is on the chord, the sample
    included. *)
Lemma first_interval_chord (x0 x1 y0 y1 x : Q) :
  x0 < x1 ->
  (if Qeq_bool x0 x then y0 else (y1 - y0) / (x1 - x0) * (x - x0) + y0)
  == (y1 - y0) / (x1 - x0) * (x - x0) + y0.
Proof.
  intros H01. destruct (Qeq_bool x0 x) eqn:E; [|reflexivity].
  apply Qeq_bool_iff in E. rewrite <- E. field. lra.
Qed.

Lemma interp_from_lower (xp : list Q) : forall fp x0 y0 x,
  increasing_from x0 xp -> length xp = length fp ->
  Table.nondecreasing_from y0 fp -> x0 <= x ->
  y0 <= interp_from x x0 y0 (combine xp fp).
Proof.
  induction xp as [|x1 xp IH]; intros fp x0 y0 x Hinc Hlen Hnd Hx.
  - destruct fp; [|discriminate]. simpl. lra.
  - destruct fp as [|y1 fp]; [discriminate|].
    destruct Hinc as [H01 Hinc]. destruct Hnd as [Hy Hnd]. simpl.
    destruct (Qltb x x1) eqn:E.
    + apply Qltb_lt in E. rewrite (first_interval_chord x0 x1 y0 y1 x H01).
      assert (Hs : 0 <= (y1 - y0) / (x1 - x0))
        by (apply Qle_shift_div_l; lra).
      nra.
    + apply Qltb_ge in E.
      apply Qle_trans with y1; [exact Hy|]. apply IH; auto.
Qed.

Lemma interp_from_monotone (xp : list Q) : forall fp x0 y0 x x',
  increasing_from x0 xp -> length xp = length fp ->
  Table.nondecreasing_from y0 fp -> x0 <= x -> x <= x' ->
  interp_from x x0 y0 (combine xp fp)
  <= interp_from x' x0 y0 (combine xp fp).
Proof.
  induction xp as [|x1 xp IH]; intros fp x0 y0 x x' Hinc Hlen Hnd Hx Hxx.
  - destruct fp; [|discriminate]. simpl. lra.
  - destruct fp as [|y1 fp]; [discriminate|].
    destruct Hinc as [H01 Hinc]. destruct Hnd as [Hy Hnd]. simpl.
    destruct (Qltb x x1) eqn:E; destruct (Qltb x' x1) eqn:E'.
    + rewrite !(first_interval_chord x0 x1 y0 y1 _ H01).
      apply chord_increasing; auto.
    + apply Qltb_lt in E. apply Qltb_ge in E'.
      rewrite (first_interval_chord x0 x1 y0 y1 x H01).
      apply Qle_trans with y1.
      * assert (Hs : 0 <= (y1 - y0) / (x1 - x0))
          by (apply Qle_shift_div_l; lra).
        assert (Hc : (y1 - y0) / (x1 - x0) * (x1 - x0) + y0 == y1)
          by (field; lra).
        set (sl := (y1 - y0) / (x1 - x0)) in *. nra.
      * apply interp_from_lower; auto.
    + apply Qltb_ge in E. apply Qltb_lt in E'. lra.
    + apply Qltb_ge in E. apply IH; auto.
Qed.

(** X3.  On a table whose values do not decrease along the grid,
    [np.interp] does not decrease with the query. *)
Theorem X3_interp_monotone (xp fp : list Q) (x x' : Q) :
  increasing xp -> length xp = length fp ->
  Table.nondecreasing fp -> x <= x' ->
  interp x xp fp <= interp x' xp fp.
Proof.
  intros Hinc Hlen Hnd Hxx. unfold interp.
  destruct xp as [|x0 xp]; [simpl; lra|].
  destruct fp as [|y0 fp]; [discriminate|].
  simpl combine. cbv iota beta.
  destruct (Qltb x x0) eqn:E; destruct (Qltb x' x0) eqn:E'.
  - lra.
  - apply Qltb_ge in E'. apply interp_from_lower; auto.
  - apply Qltb_ge in E. apply Qltb_lt in E'. lra.
  - apply Qltb_ge in E. apply interp_from_monotone; auto.
Qed.

Lemma CL_data_nondecreasing : Table.nondecreasing CL_data.
Proof.
  unfold Table.nondecreasing, CL_data. simpl.
  repeat (split; [intros E; discriminate E|]). exact I.
Qed.

Lemma X3_witness :
  interp 3 alpha_data CL_data <= interp 16.2 alpha_data CL_data.
Proof.
  apply (X3_interp_monotone alpha_data CL_data 3 16.2).
  - exact alpha_data_increasing.
  - reflexivity.
  - exact CL_data_nondecreasing.
  - intros E; discriminate E.
Defined.

(** ** Equal rationals, equal lookups *)

Lemma Qltb_compat (a a' b b' : Q) :
  a == a' -> b == b' -> Qltb a b = Qltb a' b'.
Proof.
  intros Ha Hb. destruct (Qltb a' b') eqn:E.
  - apply Qltb_lt. apply Qltb_lt in E. lra.
  - apply Qltb_ge. apply Qltb_ge in E. lra.
Qed.

Lemma Qeq_bool_compat (a a' b b' : Q) :
  a == a' -> b == b' -> Qeq_bool a b = Qeq_bool a' b'.
Proof.
  intros Ha Hb. destruct (Qeq_bool a' b') eqn:E.
  - apply Qeq_bool_iff. apply Qeq_bool_iff in E. lra.
  - apply Qeq_bool_false. apply Qeq_bool_neq in E. lra.
Qed.

Lemma interp_from_compat (rest : list (Q * Q)) : forall x x' x0 y0,
  x == x' -> interp_from x x0 y0 rest == interp_from x' x0 y0 rest.
Proof.
  induction rest as [|[x1 y1] rest IH]; intros x x' x0 y0 Hx; simpl.
  - reflexivity.
  - rewrite (Qltb_compat x x' x1 x1 Hx (Qeq_refl _)).
    rewrite (Qeq_bool_compat x0 x0 x x' (Qeq_refl _) Hx).
    destruct (Qltb x' x1); [|apply IH; exact Hx].
    destruct (Qeq_bool x0 x'); [reflexivity|]. rewrite Hx. reflexivity.
Qed.

Lemma interp_compat (xp fp : list Q) (x x' : Q) :
  x == x' -> interp x xp fp == interp x' xp fp.
Proof.
  intros Hx. unfold interp. destruct (combine xp fp) as [|[x0 y0] rest].
  - reflexivity.
  - rewrite (Qltb_compat x x' x0 x0 Hx (Qeq_refl _)).
    destruct (Qltb x' x0); [reflexivity|]. apply interp_from_compat, Hx.
Qed.

Lemma clamp_compat (lo hi x x' : Q) :
  x == x' -> clamp lo hi x == clamp lo hi x'.
Proof.
  intros Hx. unfold clamp.
  rewrite (Qltb_compat x x' lo lo Hx (Qeq_refl _)).
  rewrite (Qltb_compat hi hi x x' (Qeq_refl _) Hx).
  destruct (Qltb x' lo); [reflexivity|].
  destruct (Qltb hi x'); [reflexivity | exact Hx].
Qed.

Lemma search_compat (t : list Q) (arg arg' : Q) : forall steps l,
  arg == arg' -> search t arg l steps = search t arg' l steps.
Proof.
  induction steps as [|steps IH]; intros l Harg; simpl; [reflexivity|].
  rewrite (Qltb_compat arg arg' _ _ Harg (Qeq_refl _)).
  destruct (Qltb arg' (nth (S l) t 0)); [reflexivity|]. apply IH, Harg.
Qed.

Lemma fpbspl_row_compat (t : list Q) (x x' : Q) (l j : nat) :
  x == x' ->
  forall hh hh' i carry carry',
    Forall2 Qeq hh hh' -> carry == carry' ->
    Forall2 Qeq (fpbspl_row t x l j i hh carry)
                (fpbspl_row t x' l j i hh' carry').
Proof.
  intros Hx hh hh' i carry carry' Hhh. revert i carry carry'.
  induction Hhh as [|h h' hh hh' Hh Hhh IH]; intros i carry carry' Hc; simpl.
  - constructor; [exact Hc | constructor].
  - constructor.
    + rewrite !Qred_correct, Hc, Hh, Hx. reflexivity.
    + apply IH. rewrite !Qred_correct, Hh, Hx. reflexivity.
Qed.

Lemma fpbspl_compat (t : list Q) (x x' : Q) (l : nat) :
  x == x' -> forall k, Forall2 Qeq (fpbspl t k x l) (fpbspl t k x' l).
Proof.
  intros Hx k. induction k as [|k IH]; simpl.
  - constructor; [reflexivity | constructor].
  - apply fpbspl_row_compat; [exact Hx | exact IH | reflexivity].
Qed.

Lemma dot_compat (a : list Q) : forall a' b b',
  Forall2 Qeq a a' -> Forall2 Qeq b b' -> dot a b == dot a' b'.
Proof.
  intros a' b b' Ha. revert b b'.
  induction Ha as [|x x' a a' Hx Ha IH]; intros b b' Hb.
  - reflexivity.
  - destruct Hb as [|y y' b b' Hy Hb]; [reflexivity|].
    unfold dot. simpl. rewrite !Qred_correct. fold (dot a b) (dot a' b').
    rewrite (IH b b' Hb), Hx, Hy. reflexivity.
Qed.

Lemma Forall2_Qeq_refl (a : list Q) : Forall2 Qeq a a.
Proof. induction a; constructor; [reflexivity | assumption]. Qed.

Lemma fpbisp_at_compat (S : spline) (x x' y y' : Q) :
  x == x' -> y == y' -> fpbisp_at S x y == fpbisp_at S x' y'.
Proof.
  intros Hx Hy. unfold fpbisp_at, interval.
  rewrite (search_compat (tx S) x x' _ _ Hx).
  rewrite (search_compat (ty S) y y' _ _ Hy).
  apply dot_compat; [apply fpbspl_compat, Hx|].
  induction (window _ _ (coef S)) as [|row rows IH]; simpl; constructor.
  - apply dot_compat; [apply Forall2_Qeq_refl | apply fpbspl_compat, Hy].
  - exact IH.
Qed.

Lemma bispev_compat (S : spline) (x x' y y' : Q) :
  x == x' -> y == y' -> bispev S x y == bispev S x' y'.
Proof.
  intros Hx Hy. unfold bispev.
  apply fpbisp_at_compat; apply clamp_compat; assumption.
Qed.

(** ** Combinations of rows of coefficients *)

Lemma dot_cons (a b : Q) (u v : list Q) :
  dot (a :: u) (b :: v) == a * b + dot u v.
Proof. unfold dot. simpl. rewrite Qred_correct. reflexivity. Qed.

Lemma dot_nil_r (u : list Q) : dot u [] = 0.
Proof. destruct u; reflexivity. Qed.

Lemma dot_zero_l (u : list Q) : forall v, Forall (Qeq 0) u -> dot u v == 0.
Proof.
  induction u as [|a u IH]; intros v Hu; [reflexivity|].
  destruct v as [|b v]; [reflexivity|].
  apply Forall_cons in Hu as [Ha Hu].
  rewrite dot_cons, (IH v Hu), <- Ha. ring.
Qed.

Lemma dot_lscale (h : Q) (u : list Q) : forall v,
  dot (Rows.lscale h u) v == h * dot u v.
Proof.
  induction u as [|a u IH]; intros v; [simpl; unfold dot; simpl; ring|].
  destruct v as [|b v]; [unfold dot; simpl; ring|].
  unfold Rows.lscale in *. simpl. rewrite !dot_cons, IH. ring.
Qed.

Lemma dot_ladd (u : list Q) : forall v w,
  length u = length v ->
  dot (Rows.ladd u v) w == dot u w + dot v w.
Proof.
  induction u as [|a u IH]; intros v w Hlen.
  - destruct v; [|discriminate]. unfold dot. simpl. ring.
  - destruct v as [|b v]; [discriminate|].
    destruct w as [|c w]; [rewrite !dot_nil_r; ring|].
    unfold Rows.ladd in *. simpl. rewrite !dot_cons, IH by (simpl in Hlen; lia).
    ring.
Qed.

Lemma window_lscale (a n : nat) (h : Q) (u : list Q) :
  window a n (Rows.lscale h u) = Rows.lscale h (window a n u).
Proof.
  unfold window, Rows.lscale. rewrite skipn_map, firstn_map. reflexivity.
Qed.

Lemma skipn_ladd (a : nat) : forall u v,
  skipn a (Rows.ladd u v) = Rows.ladd (skipn a u) (skipn a v).
Proof.
  induction a as [|a IH]; intros u v; [reflexivity|].
  destruct u as [|x u]; [destruct (skipn (S a) v); reflexivity|].
  destruct v as [|y v]; [simpl; destruct (skipn a u); reflexivity|].
  simpl. apply IH.
Qed.

Lemma firstn_ladd (n : nat) : forall u v,
  firstn n (Rows.ladd u v) = Rows.ladd (firstn n u) (firstn n v).
Proof.
  induction n as [|n IH]; intros u v; [reflexivity|].
  destruct u as [|x u]; [reflexivity|].
  destruct v as [|y v]; [reflexivity|].
  simpl. unfold Rows.ladd in *. simpl. f_equal. apply IH.
Qed.

Lemma window_ladd (a n : nat) (u v : list Q) :
  window a n (Rows.ladd u v) = Rows.ladd (window a n u) (window a n v).
Proof. unfold window. rewrite skipn_ladd, firstn_ladd. reflexivity. Qed.

Lemma window_length_eq {A : Type} (a n : nat) (u v : list A) :
  length u = length v -> length (window a n u) = length (window a n v).
Proof.
  intros H. unfold window. rewrite !length_firstn, !length_skipn, H.
  reflexivity.
Qed.

Lemma lscale_length (h : Q) (u : list Q) :
  length (Rows.lscale h u) = length u.
Proof. apply length_map. Qed.

Lemma ladd_length (u v : list Q) :
  length u = length v -> length (Rows.ladd u v) = length u.
Proof.
  intros H. unfold Rows.ladd. rewrite length_map, length_combine. lia.
Qed.

Lemma lincomb_length (m : nat) (hx : list Q) : forall R,
  Forall (fun row => length row = m) R ->
  length (Rows.lincomb m hx R) = m.
Proof.
  induction hx as [|h hx IH]; intros R HR; [apply repeat_length|].
  destruct R as [|row R]; [apply repeat_length|].
  apply Forall_cons in HR as [Hrow HR]. simpl.
  rewrite ladd_length; rewrite lscale_length; [exact Hrow|].
  rewrite (IH R HR). exact Hrow.
Qed.

(** The weighted sum of a window of every row against [hy] is the window
    of the combined row against [hy]. *)
Lemma dot_rows_lincomb (m a n : nat) (hy hx : list Q) : forall R,
  Forall (fun row => length row = m) R ->
  dot hx (map (fun row => dot (window a n row) hy) R)
  == dot (window a n (Rows.lincomb m hx R)) hy.
Proof.
  induction hx as [|h hx IH]; intros R HR.
  - simpl. symmetry. apply dot_zero_l.
    unfold window. apply Forall_take, Forall_drop, List.Forall_forall.
    intros x Hx. apply repeat_spec in Hx. subst x. reflexivity.
  - destruct R as [|row R].
    + simpl. rewrite dot_nil_r. symmetry. apply dot_zero_l.
      unfold window. apply Forall_take, Forall_drop, List.Forall_forall.
      intros x Hx. apply repeat_spec in Hx. subst x. reflexivity.
    + apply Forall_cons in HR as [Hrow HR]. simpl.
      rewrite dot_cons, (IH R HR), window_ladd, dot_ladd, window_lscale,
        dot_lscale; [reflexivity|].
      apply window_length_eq. rewrite lscale_length, lincomb_length; auto.
Qed.

Lemma cancels_dot (m a n : nat) (hy hx : list Q) (R : list (list Q)) :
  Rows.cancels m hx R = true ->
  dot hx (map (fun row => dot (window a n row) hy) R) == 0.
Proof.
  unfold Rows.cancels. intros H. apply andb_prop in H as [Hlen Hzero].
  rewrite (dot_rows_lincomb m).
  - apply dot_zero_l. unfold window. apply Forall_take, Forall_drop.
    apply List.Forall_forall. intros x Hx.
    rewrite forallb_forall in Hzero. apply Qeq_bool_iff, Hzero. exact Hx.
  - apply List.Forall_forall. intros row Hrow.
    rewrite forallb_forall in Hlen. apply Nat.eqb_eq, Hlen. exact Hrow.
Qed.

(** Where the weights of the first argument cancel the rows of
    coefficients, the surface is zero along the whole second direction. *)
Lemma fpbisp_at_zero (S : spline) (x y : Q) (m : nat) :
  Rows.cancels m (Rows.weights_x S x) (Rows.rows_x S x) = true ->
  fpbisp_at S x y == 0.
Proof. intros H. unfold fpbisp_at. apply (cancels_dot m). exact H. Qed.

Lemma CD_surface_zero_row (u v : Q) :
  u == 0 -> bispev Spec.CD_delta_elev_surface u v == 0.
Proof.
  intros Hu. rewrite (bispev_compat _ u 0 v v Hu (Qeq_refl v)).
  rewrite CD_surface_at_clamp.
  apply (fpbisp_at_zero _ _ _ 12). vm_compute. reflexivity.
Qed.

Lemma CN_surface_zero_row (u v : Q) :
  u == 0 -> bispev Spec.CN_delta_aile_surface u v == 0.
Proof.
  intros Hu. rewrite (bispev_compat _ u 0 v v Hu (Qeq_refl v)).
  rewrite CN_surface_at_clamp.
  apply (fpbisp_at_zero _ _ _ 12). vm_compute. reflexivity.
Qed.

(** ** The surfaces at the points of their grids *)

Lemma nodes_agree_at (S : spline) (grid_u grid_v : list Q)
    (matrix : list (list Q)) (i j : nat) (u v z u' v' : Q) :
  Rows.nodes_agree S grid_u grid_v matrix = true ->
  grid_u !! i = Some u -> grid_v !! j = Some v ->
  Scenario.table_entry matrix i j = Some z ->
  u' == u -> v' == v ->
  bispev S u' v' == z.
Proof.
  unfold Rows.nodes_agree, Scenario.table_entry.
  intros Hall Hu Hv Hz Hu' Hv'.
  destruct (matrix !! i) as [row|] eqn:Hrow; [|discriminate].
  rewrite forallb_forall in Hall.
  specialize (Hall (u, row) (lookup_In _ i _ (combine_lookup _ _ i _ _ Hu Hrow))).
  cbv beta iota in Hall. rewrite forallb_forall in Hall.
  specialize (Hall (v, z) (lookup_In _ j _ (combine_lookup _ _ j _ _ Hv Hz))).
  cbv beta iota in Hall. apply Qeq_bool_iff in Hall.
  rewrite (bispev_compat S u' u v' v Hu' Hv'). exact Hall.
Qed.

Lemma CD_surface_nodes :
  Rows.nodes_agree Spec.CD_delta_elev_surface delta_elev_data alpha_data
    CD_delta_elev_data = true.
Proof. vm_compute. reflexivity. Qed.

Lemma CN_surface_nodes :
  Rows.nodes_agree Spec.CN_delta_aile_surface delta_aile_data alpha_data
    CN_delta_aile_data = true.
Proof. vm_compute. reflexivity. Qed.

(** X4.  The two fitted surfaces pass through their tables: at a
    deflection and an angle of attack that are points of the grids, in
    degrees, the lookup of the elevator drag and the lookup of the aileron
    yawing moment return the entries tabulated there. *)
Theorem X4_surfaces_through_tables (i i' j : nat)
    (u u' v inc yaw d_e d_a a : Q) :
  delta_elev_data !! i = Some u -> delta_aile_data !! i' = Some u' ->
  alpha_data !! j = Some v ->
  Scenario.table_entry CD_delta_elev_data i j = Some inc ->
  Scenario.table_entry CN_delta_aile_data i' j = Some yaw ->
  d_e == u -> d_a == u' -> a == v ->
  bispev (RectBivariateSpline delta_elev_data alpha_data CD_delta_elev_data)
    d_e a == inc
  /\ bispev (RectBivariateSpline delta_aile_data alpha_data
               CN_delta_aile_data) d_a a == yaw.
Proof.
  intros Hu Hu' Hv Hinc Hyaw Ee Ea Eal. split.
  - exact (nodes_agree_at _ _ _ _ i j u v inc _ _ CD_surface_nodes
             Hu Hv Hinc Ee Eal).
  - exact (nodes_agree_at _ _ _ _ i' j u' v yaw _ _ CN_surface_nodes
             Hu' Hv Hyaw Ea Eal).
Qed.

(** An elevator at 15 degrees, an aileron at -10 degrees and an angle of
    attack of 10 degrees, converted from radians as the code does. *)
Lemma X4_witness :
  bispev (RectBivariateSpline delta_elev_data alpha_data CD_delta_elev_data)
    (rad2deg (15 / rad2deg_factor)) (rad2deg (10 / rad2deg_factor))
  == 0.0121
  /\ bispev (RectBivariateSpline delta_aile_data alpha_data
               CN_delta_aile_data)
       (rad2deg (-10 / rad2deg_factor)) (rad2deg (10 / rad2deg_factor))
     == 0.00797.
Proof.
  apply (X4_surfaces_through_tables 6 1 7 15 (-10) 10); reflexivity.
Defined.

(** ** Every way an evaluation can end *)

Lemma calc_verdict (s : t) :
  calculate_forces_and_moments s = Paths.verdict s.
Proof.
  unfold Paths.verdict.
  destruct (controls s !! "delta_t") as [dt|] eqn:Hdt;
    [|exact (evaluation_needs_throttle s Hdt)].
  cbv zeta.
  destruct (controls s !! "delta_elevator") as [de|] eqn:Hde.
  - destruct (Qeq_bool (2 * TAS s) 0) eqn:HV.
    + apply Qeq_bool_iff in HV.
      assert (HV0 : TAS s == 0) by lra.
      exact (calc_raises_zero s dt de Hdt Hde HV0).
    + apply Qeq_bool_neq in HV.
      assert (HV0 : ~ TAS s == 0) by (intros E; apply HV; lra).
      destruct (controls s !! "delta_aileron") as [da|] eqn:Hda.
      * destruct (controls s !! "delta_rudder") as [dr|] eqn:Hdr.
        -- exact (calc_returns s dt de da dr Hdt Hde Hda Hdr HV0).
        -- unfold calculate_forces_and_moments,
             _calculate_aero_forces_moments.
           cbv beta iota zeta delta [bind get].
           rewrite (thrust_returns s dt Hdt).
           rewrite (lon_returns (Outcome.after_thrust s dt) de Hde HV0).
           unfold _calculate_aero_lat_forces_moments_coeffs.
           cbv beta iota zeta delta [bind get getitem ret raise].
           fields. rewrite Hda, Hdr. exact eq_refl.
      * unfold calculate_forces_and_moments,
          _calculate_aero_forces_moments.
        cbv beta iota zeta delta [bind get].
        rewrite (thrust_returns s dt Hdt).
        rewrite (lon_returns (Outcome.after_thrust s dt) de Hde HV0).
        unfold _calculate_aero_lat_forces_moments_coeffs.
        cbv beta iota zeta delta [bind get getitem ret raise].
        fields. rewrite Hda. exact eq_refl.
  - unfold calculate_forces_and_moments, _calculate_aero_forces_moments.
    cbv beta iota zeta delta [bind get].
    rewrite (thrust_returns s dt Hdt).
    assert (Hde' : controls (Outcome.after_thrust s dt) !! "delta_elevator"
                   = None) by exact Hde.
    rewrite (lon_raises_key (Outcome.after_thrust s dt) Hde').
    reflexivity.
Qed.

Ltac verdict_cases s :=
  rewrite (calc_verdict s) in *; unfold Paths.verdict in *;
  destruct (controls s !! "delta_t") as [dt|] eqn:Hdt;
    [cbv zeta in *;
     destruct (controls s !! "delta_elevator") as [de|] eqn:Hde;
       [destruct (Qeq_bool (2 * TAS s) 0) eqn:HV;
          [|destruct (controls s !! "delta_aileron") as [da|] eqn:Hda;
              [destruct (controls s !! "delta_rudder") as [dr|] eqn:Hdr|]]|]|].


(** X6.  An evaluation raises nothing but a [KeyError] for a control that
    is not set, or a [ZeroDivisionError] at a zero airspeed; in
    particular it never fails on reading [CM] or [CN], which do not exist
    before the first evaluation. *)
Theorem X6_exceptions (s s' : t) (e : exn) :
  calculate_forces_and_moments s = (s', inl e) ->
  (exists key, e = KeyError key /\ controls s !! key = None
               /\ In key ["delta_t"; "delta_elevator"; "delta_aileron";
                          "delta_rudder"]%string)
  \/ (e = ZeroDivisionError /\ TAS s == 0).
Proof.
  intros Hrun.
  verdict_cases s; (injection Hrun as _ <- || discriminate Hrun);
    first
      [ right; split; [reflexivity|]; apply Qeq_bool_iff in HV; lra
      | left; eexists; split; [reflexivity|];
        split; [eassumption|]; simpl; auto 6 ].
Qed.

Lemma X6_witness :
  (exists key, ZeroDivisionError = KeyError key
               /\ controls Scenario.parked !! key = None
               /\ In key ["delta_t"; "delta_elevator"; "delta_aileron";
                          "delta_rudder"]%string)
  \/ (ZeroDivisionError = ZeroDivisionError /\ TAS Scenario.parked == 0).
Proof.
  apply (X6_exceptions Scenario.parked
           (Outcome.after_thrust Scenario.parked 0) ZeroDivisionError).
  apply (calc_raises_zero Scenario.parked 0 0); reflexivity.
Defined.

(** X7.  [total_forces] and [total_moments] are assigned by an evaluation
    that returns, and are then what it returns; an evaluation that raises
    leaves them as they were. *)
Theorem X7_totals_assigned_on_return_only (s : t) :
  let s' := fst (calculate_forces_and_moments s) in
  match snd (calculate_forces_and_moments s) with
  | inr (F, M) => total_forces s' = F /\ total_moments s' = M
  | inl _ =>
      total_forces s' = total_forces s /\ total_moments s' = total_moments s
  end.
Proof.
  verdict_cases s; cbn [fst snd]; split; exact eq_refl.
Qed.

(** X8.  Whether it returns or raises, an evaluation leaves every
    attribute the constructor or the caller assigns as it was: the mass
    and the geometry, the controls and their limits, the gravity force,
    the velocities, the dynamic pressure, the angular rates and the
    angles. *)
Theorem X8_inputs_untouched (s : t) :
  Paths.assigned_by_caller (fst (calculate_forces_and_moments s))
  = Paths.assigned_by_caller s.
Proof.
  verdict_cases s; cbn [fst]; exact eq_refl.
Qed.

(** X9.  An evaluation that stops on a missing aileron or rudder control
    has already assigned the thrust and the longitudinal coefficients of
    the new state, while the lateral coefficients and the totals are
    those of before. *)
Theorem X9_lateral_failure_half_assigned (s : t) (dt de : Q) :
  controls s !! "delta_t" = Some dt ->
  controls s !! "delta_elevator" = Some de ->
  ~ TAS s == 0 ->
  controls s !! "delta_aileron" = None
  \/ controls s !! "delta_rudder" = None ->
  exists s' key,
    calculate_forces_and_moments s = (s', inl (KeyError key))
    /\ Ct s' = 0.031 * dt
    /\ CL s' = Outcome.CL_value s de
    /\ CD s' = Outcome.CD_value s de
    /\ CM s' = Some (Outcome.CM_value s de)
    /\ CY s' = CY s /\ Cl s' = Cl s /\ CN s' = CN s
    /\ total_forces s' = total_forces s
    /\ total_moments s' = total_moments s.
Proof.
  intros Hdt' Hde' HV' Hlat.
  assert (H2V : Qeq_bool (2 * TAS s) 0 = false).
  { apply Qeq_bool_false. intros E. apply HV'. lra. }
  rewrite (calc_verdict s). unfold Paths.verdict.
  rewrite Hdt', Hde', H2V. cbv zeta.
  destruct (controls s !! "delta_aileron") as [da|] eqn:Hda.
  - destruct Hlat as [Hlat|Hlat]; [discriminate Hlat|]. rewrite Hlat.
    do 2 eexists. split; [reflexivity|]. repeat split.
  - do 2 eexists. split; [reflexivity|]. repeat split.
Qed.

Lemma X9_witness :
  exists s' key,
    calculate_forces_and_moments Cases.no_aileron = (s', inl (KeyError key))
    /\ Ct s' = 0.031 * 0.5 /\ CY s' = 1.
Proof.
  assert (Hdt : controls Cases.no_aileron !! "delta_t" = Some 0.5)
    by reflexivity.
  assert (Hde : controls Cases.no_aileron !! "delta_elevator" = Some 0)
    by reflexivity.
  assert (HV : ~ TAS Cases.no_aileron == 0) by (intros E; discriminate E).
  assert (Hda : controls Cases.no_aileron !! "delta_aileron" = None)
    by reflexivity.
  destruct (X9_lateral_failure_half_assigned Cases.no_aileron 0.5 0
              Hdt Hde HV (or_introl Hda))
    as (s' & key & Hrun & HCt & _ & _ & _ & HCY & _).
  exists s', key. repeat split; assumption.
Defined.

(** X10.  Evaluating again without assigning anything in between gives
    the same result and leaves the instance as the first evaluation left
    it, whether the evaluation returns or raises. *)
Theorem X10_evaluation_idempotent (s : t) :
  calculate_forces_and_moments (fst (calculate_forces_and_moments s))
  = calculate_forces_and_moments s.
Proof.
  rewrite (calc_verdict s).
  rewrite (calc_verdict (fst (Paths.verdict s))).
  unfold Paths.verdict at 2 3.
  destruct (controls s !! "delta_t") as [dt|] eqn:Hdt.
  - cbv zeta. destruct (controls s !! "delta_elevator") as [de|] eqn:Hde.
    + destruct (Qeq_bool (2 * TAS s) 0) eqn:HV.
      * unfold Paths.verdict. cbn [fst]. fields.
        rewrite Hdt, Hde, HV. exact eq_refl.
      * destruct (controls s !! "delta_aileron") as [da|] eqn:Hda.
        -- destruct (controls s !! "delta_rudder") as [dr|] eqn:Hdr.
           ++ unfold Paths.verdict. cbn [fst]. outcome.
              rewrite Hdt, Hde, HV, Hda, Hdr. exact eq_refl.
           ++ unfold Paths.verdict. cbn [fst]. outcome.
              rewrite Hdt, Hde, HV, Hda, Hdr. exact eq_refl.
        -- unfold Paths.verdict. cbn [fst]. outcome.
           rewrite Hdt, Hde, HV, Hda. exact eq_refl.
    + unfold Paths.verdict. cbn [fst]. fields.
      rewrite Hdt, Hde. exact eq_refl.
  - unfold Paths.verdict. cbn [fst]. rewrite Hdt. exact eq_refl.
Qed.

(** The result of an evaluation depends on the instance through the
    caller's assignments and the geometry only. *)
Lemma result_from_inputs (s1 s2 : t) (i : inputs) :
  Sw s1 = Sw s2 -> chord s1 = chord s2 -> span s1 = span s2 ->
  snd (calculate_forces_and_moments (set_inputs i s1))
  = snd (calculate_forces_and_moments (set_inputs i s2)).
Proof.
  intros HSw Hchord Hspan.
  rewrite !calc_verdict. unfold Paths.verdict. fields.
  destruct (in_controls i !! "delta_t") as [dt|]; [|exact eq_refl].
  cbv zeta.
  destruct (in_controls i !! "delta_elevator") as [de|]; [|exact eq_refl].
  destruct (Qeq_bool (2 * in_TAS i) 0); [exact eq_refl|].
  destruct (in_controls i !! "delta_aileron") as [da|]; [|exact eq_refl].
  destruct (in_controls i !! "delta_rudder") as [dr|]; [|exact eq_refl].
  cbn [snd]. outcome. rewrite HSw, Hchord, Hspan. exact eq_refl.
Qed.

Lemma step_geometry (s : t) (i : inputs) :
  Sw (step s i) = Sw s /\ chord (step s i) = chord s
  /\ span (step s i) = span s.
Proof.
  unfold step. verdict_cases (set_inputs i s); cbn [fst];
    repeat split; exact eq_refl.
Qed.

Lemma simulate_geometry (steps : list inputs) : forall s,
  Sw (simulate s steps) = Sw s /\ chord (simulate s steps) = chord s
  /\ span (simulate s steps) = span s.
Proof.
  induction steps as [|i steps IH]; intros s; [repeat split|].
  simpl. destruct (IH (step s i)) as (-> & -> & ->). apply step_geometry.
Qed.

(** X11.  An evaluation has no memory: after any sequence of evaluations,
    returned or raised, the next one gives the result that the first
    evaluation of a newly constructed aircraft gives on the same
    assignments of the caller. *)
Theorem X11_no_memory (ft2m lbs2kg slugft2_2_kgm2 : Q)
    (steps : list inputs) (i : inputs) :
  let new := __init__ ft2m lbs2kg slugft2_2_kgm2 in
  snd (calculate_forces_and_moments (set_inputs i (simulate new steps)))
  = snd (calculate_forces_and_moments (set_inputs i new)).
Proof.
  intros new.
  destruct (simulate_geometry steps new) as (HSw & Hchord & Hspan).
  apply result_from_inputs; assumption.
Qed.

(** ** Angles of attack beyond the grid *)

(** Two queries on the same side beyond the grid are looked up alike. *)
Lemma interp_beyond (xp fp : list Q) (x x' x0 xn : Q) :
  increasing xp -> length xp = length fp ->
  head xp = Some x0 -> last xp = Some xn ->
  (xn < x /\ xn < x') \/ (x < x0 /\ x' < x0) ->
  interp x xp fp = interp x' xp fp.
Proof.
  intros Hinc Hlen H0 Hn [[Hx Hx']|[Hx Hx']].
  - destruct (last fp) as [yn|] eqn:Hy.
    + rewrite (interp_above xp fp x xn yn), (interp_above xp fp x' xn yn);
        auto.
    + apply last_None in Hy. subst fp. destruct xp; [|discriminate].
      reflexivity.
  - destruct (head fp) as [y0|] eqn:Hy.
    + rewrite (interp_below xp fp x x0 y0), (interp_below xp fp x' x0 y0);
        auto.
    + destruct fp; [|discriminate]. destruct xp; [|discriminate].
      reflexivity.
Qed.

Lemma clamp_beyond (lo hi x x' : Q) :
  lo <= hi ->
  (hi < x /\ hi < x') \/ (x < lo /\ x' < lo) ->
  clamp lo hi x = clamp lo hi x'.
Proof.
  intros Hle [[Hx Hx']|[Hx Hx']].
  - rewrite !clamp_above; auto.
  - rewrite !clamp_below; auto.
Qed.

Lemma alpha_lookup_beyond (fp : list Q) (x x' : Q) :
  length alpha_data = length fp ->
  (19.5 < x /\ 19.5 < x') \/ (x < -7.5 /\ x' < -7.5) ->
  interp x alpha_data fp = interp x' alpha_data fp.
Proof.
  intros Hlen H.
  apply (interp_beyond alpha_data fp x x' (-7.5) 19.5); auto.
  exact alpha_data_increasing.
Qed.

Lemma CD_surface_beyond (u x x' : Q) :
  (19.5 < x /\ 19.5 < x') \/ (x < -7.5 /\ x' < -7.5) ->
  bispev (RectBivariateSpline delta_elev_data alpha_data CD_delta_elev_data)
    u x
  = bispev (RectBivariateSpline delta_elev_data alpha_data CD_delta_elev_data)
      u x'.
Proof.
  intros H. change (RectBivariateSpline delta_elev_data alpha_data
                      CD_delta_elev_data) with Spec.CD_delta_elev_surface.
  rewrite (CD_surface_at_clamp u x), (CD_surface_at_clamp u x').
  rewrite (clamp_beyond (-7.5) 19.5 x x'); [reflexivity| |exact H].
  intros E; discriminate E.
Qed.

Lemma CN_surface_beyond (u x x' : Q) :
  (19.5 < x /\ 19.5 < x') \/ (x < -7.5 /\ x' < -7.5) ->
  bispev (RectBivariateSpline delta_aile_data alpha_data CN_delta_aile_data)
    u x
  = bispev (RectBivariateSpline delta_aile_data alpha_data CN_delta_aile_data)
      u x'.
Proof.
  intros H. change (RectBivariateSpline delta_aile_data alpha_data
                      CN_delta_aile_data) with Spec.CN_delta_aile_surface.
  rewrite (CN_surface_at_clamp u x), (CN_surface_at_clamp u x').
  rewrite (clamp_beyond (-7.5) 19.5 x x'); [reflexivity| |exact H].
  intros E; discriminate E.
Qed.

(** X12.  Beyond the grid of the angle of attack the model is saturated:
    two evaluations whose inputs differ in the angle of attack only, both
    above 19.5 degrees or both below -7.5 degrees, end alike, with the
    same forces and moments when they return. *)
Theorem X12_saturated_angle_of_attack (s : t) (i : inputs) (a1 a2 : Q) :
  (19.5 < rad2deg a1 /\ 19.5 < rad2deg a2)
  \/ (rad2deg a1 < -7.5 /\ rad2deg a2 < -7.5) ->
  snd (calculate_forces_and_moments (set_inputs (Paths.with_alpha a1 i) s))
  = snd (calculate_forces_and_moments
           (set_inputs (Paths.with_alpha a2 i) s)).
Proof.
  intros Hside.
  rewrite !calc_verdict. unfold Paths.verdict, Paths.with_alpha. fields.
  cbn [in_TAS in_q_inf in_p in_q in_r in_alpha in_beta in_alpha_dot
       in_controls in_gravity_force].
  destruct (in_controls i !! "delta_t") as [dt|]; [|exact eq_refl].
  cbv zeta.
  destruct (in_controls i !! "delta_elevator") as [de|]; [|exact eq_refl].
  destruct (Qeq_bool (2 * in_TAS i) 0); [exact eq_refl|].
  destruct (in_controls i !! "delta_aileron") as [da|]; [|exact eq_refl].
  destruct (in_controls i !! "delta_rudder") as [dr|]; [|exact eq_refl].
  cbn [snd]. outcome.
  cbn [in_TAS in_q_inf in_p in_q in_r in_alpha in_beta in_alpha_dot
       in_controls in_gravity_force].
  rewrite (CD_surface_beyond _ _ _ Hside), (CN_surface_beyond _ _ _ Hside).
  repeat match goal with
  | |- context [interp (rad2deg a1) alpha_data ?fp] =>
      rewrite (alpha_lookup_beyond fp (rad2deg a1) (rad2deg a2) eq_refl Hside)
  end.
  exact eq_refl.
Qed.

Lemma X12_witness :
  snd (calculate_forces_and_moments
         (set_inputs (Paths.with_alpha 0.4 Scenario.cruise_inputs)
            Scenario.fresh))
  = snd (calculate_forces_and_moments
           (set_inputs (Paths.with_alpha 0.5 Scenario.cruise_inputs)
              Scenario.fresh)).
Proof.
  apply (X12_saturated_angle_of_attack Scenario.fresh Scenario.cruise_inputs
           0.4 0.5).
  left. split; reflexivity.
Defined.

(** ** The dynamic pressure *)

(** X13.  The moments, and the total force less the gravity force, are
    proportional to the dynamic pressure: when an evaluation returns [F]
    and [M], the evaluation of the same state at [k] times the dynamic
    pressure returns [k * M] and [k * (F - Fg) + Fg], for every [k],
    zero and negative ones included. *)
Theorem X13_proportional_to_dynamic_pressure (s s' : t) (F M : vec3)
    (k : Q) :
  calculate_forces_and_moments s = (s', inr (F, M)) ->
  exists s2 F2 M2,
    calculate_forces_and_moments (set_q_inf (k * q_inf s) s)
    = (s2, inr (F2, M2))
    /\ veq M2 (vscale k M)
    /\ veq (vadd F2 (vscale k (gravity_force s)))
           (vadd (vscale k F) (gravity_force s)).
Proof.
  intros Hrun.
  rewrite (calc_verdict (set_q_inf (k * q_inf s) s)).
  rewrite (calc_verdict s) in Hrun.
  unfold Paths.verdict in *. fields.
  destruct (controls s !! "delta_t") as [dt|]; [|discriminate Hrun].
  cbv zeta in *.
  destruct (controls s !! "delta_elevator") as [de|]; [|discriminate Hrun].
  destruct (Qeq_bool (2 * TAS s) 0); [discriminate Hrun|].
  destruct (controls s !! "delta_aileron") as [da|]; [|discriminate Hrun].
  destruct (controls s !! "delta_rudder") as [dr|]; [|discriminate Hrun].
  injection Hrun as _ <- <-.
  do 3 eexists. split; [reflexivity|].
  outcome. destruct (gravity_force s) as [[g1 g2] g3].
  cbv [veq vscale vadd]. repeat split; ring.
Qed.

(** At zero dynamic pressure the cruise condition is left with its
    gravity force and no moment. *)
Lemma X13_witness :
  exists s2 F2 M2,
    calculate_forces_and_moments (set_q_inf 0 Scenario.cruise)
    = (s2, inr (F2, M2))
    /\ veq M2 (0, 0, 0) /\ veq F2 (0, 0, 10234).
Proof.
  destruct (calculate_forces_and_moments Scenario.cruise)
    as [s' [e|[F M]]] eqn:Hrun.
  - exfalso.
    rewrite (calc_returns Scenario.cruise 0.6 (-0.02) 0.03 0.01) in Hrun;
      [discriminate Hrun|reflexivity..|intros E; discriminate E].
  - destruct (X13_proportional_to_dynamic_pressure Scenario.cruise s' F M 0
                Hrun) as (s2 & F2 & M2 & Hrun2 & HM & HF).
    exists s2, F2, M2. split; [exact Hrun2|].
    destruct F as [[f1 f2] f3], M as [[m1 m2] m3],
      F2 as [[a1 a2] a3], M2 as [[b1 b2] b3].
    cbv [veq vscale vadd Scenario.cruise Scenario.cruise_inputs set_inputs
         gravity_force in_gravity_force] in *.
    destruct HM as (? & ? & ?), HF as (? & ? & ?).
    repeat split; lra.
Defined.

(** ** Derivatives that do not depend on the angle of attack *)

Lemma constant_table (c : Q) (fp : list Q) (x : Q) :
  length alpha_data = length fp -> Table.within c c fp ->
  interp x alpha_data fp == c.
Proof.
  intros Hlen Hfp. unfold interp.
  destruct fp as [|y0 fp]; [discriminate|].
  apply Forall_cons in Hfp as [Hy0 Hfp].
  unfold alpha_data in *. simpl combine. cbv iota beta.
  destruct (Qltb x (-7.5)) eqn:E; [lra|].
  apply Qltb_ge in E.
  assert (H : c <= interp_from x (-7.5) y0
                     (combine [-5; -2.5; 0; 2.5; 5; 7.5; 10; 15; 17; 18;
                               19.5] fp) <= c).
  { apply interp_from_within;
      [exact alpha_data_increasing| |exact E|exact Hy0|exact Hfp].
    simpl in Hlen. injection Hlen as Hlen. exact Hlen. }
  destruct H as [Hlo Hhi]. apply Qle_antisym; assumption.
Qed.

Ltac all_equal :=
  repeat (constructor; [split; intros E; discriminate E|]); constructor.

(** X14.  Five derivatives are tabulated with one value along the whole
    grid, and the lookup returns that value at every angle of attack, on
    the grid, between its points and beyond it: the pitch-rate
    derivatives of the lift (7.282) and of the pitching moment (-6.232),
    the sideslip derivatives of the side force (-0.268) and of the yawing
    moment (0.0126), and the rudder derivative of the side force
    (-0.561). *)
Theorem X14_constant_derivatives (x : Q) :
  interp x alpha_data CL_q_data == 7.282
  /\ interp x alpha_data CM_q_data == -6.232
  /\ interp x alpha_data CY_beta_data == -0.268
  /\ interp x alpha_data CN_beta_data == 0.0126
  /\ interp x alpha_data CY_delta_rud_data == -0.561.
Proof.
  repeat split; (apply constant_table; [reflexivity|]).
  - unfold Table.within, CL_q_data. all_equal.
  - unfold Table.within, CM_q_data. all_equal.
  - unfold Table.within, CY_beta_data. all_equal.
  - unfold Table.within, CN_beta_data. all_equal.
  - unfold Table.within, CY_delta_rud_data. simpl map. all_equal.
Qed.

(** ** Controls at neutral *)

Lemma rad2deg_zero (x : Q) : x == 0 -> rad2deg x == 0.
Proof. intros H. unfold rad2deg. rewrite H. reflexivity. Qed.

(** X15.  With the elevator at neutral the drag coefficient is the static
    drag of the angle of attack at every angle of attack, the fitted
    surface of the elevator drag being zero along its whole zero row; the
    lift has no elevator term, and the pitching moment keeps the -0.0002
    tabulated at zero deflection. *)
Theorem X15_neutral_elevator (s : t) (de : Q) :
  controls s !! "delta_elevator" = Some de ->
  de == 0 ->
  ~ TAS s == 0 ->
  let a := rad2deg (alpha s) in
  let k := chord s / (2 * TAS s) in
  exists s' cm,
    _calculate_aero_lon_forces_moments_coeffs s = (s', inr tt)
    /\ CD s' == interp a alpha_data CD_data
    /\ CL s' == interp a alpha_data CL_data
                + k * (interp a alpha_data CL_alphadot_data * alpha_dot s
                       + interp a alpha_data CL_q_data * q s)
    /\ CM s' = Some cm
    /\ cm == interp a alpha_data CM_data - 0.0002
             + k * (interp a alpha_data CM_q_data * q s
                    + interp a alpha_data CM_alphadot_data * alpha_dot s).
Proof.
  intros Hde H0 HV a k. subst a k.
  apply rad2deg_zero in H0.
  exists (Outcome.after_lon s de s), (Outcome.CM_value s de).
  split; [exact (lon_returns s de Hde HV)|].
  pose proof (CD_surface_zero_row (rad2deg de) (rad2deg (alpha s)) H0)
    as HCD.
  assert (HCL : interp (rad2deg de) delta_elev_data CL_delta_elev_data = 0).
  { apply interp_node with (i := 4%nat) (xi := 0); try reflexivity;
      [exact delta_elev_data_increasing|exact H0]. }
  assert (HCM : interp (rad2deg de) delta_elev_data CM_delta_elev_data
                = -0.0002).
  { apply interp_node with (i := 4%nat) (xi := 0); try reflexivity;
      [exact delta_elev_data_increasing|exact H0]. }
  unfold Spec.CD_delta_elev_surface in HCD.
  outcome. rewrite HCL, HCM.
  split; [rewrite HCD; ring|].
  split; [ring|]. split; [reflexivity|ring].
Qed.

Lemma X15_witness :
  exists s' cm,
    _calculate_aero_lon_forces_moments_coeffs Cases.throttle_only
    = (s', inr tt)
    /\ CD s' == interp (rad2deg 0) alpha_data CD_data
    /\ CM s' = Some cm.
Proof.
  assert (Hde : controls Cases.throttle_only !! "delta_elevator" = Some 0)
    by reflexivity.
  assert (HV : ~ TAS Cases.throttle_only == 0) by (intros E; discriminate E).
  destruct (X15_neutral_elevator Cases.throttle_only 0 Hde (Qeq_refl 0) HV)
    as (s' & cm & Hrun & HCD & _ & HCM & _).
  exists s', cm. repeat split; assumption.
Defined.

(** X16.  In symmetric flight (no sideslip, no roll or yaw rate, aileron
    and rudder at neutral) the lateral model is at rest at every angle of
    attack, airspeed, throttle and elevator deflection: the side-force,
    rolling-moment and yawing-moment coefficients are zero, the lateral
    component of the total force is that of the gravity force, and the
    rolling and yawing moments are zero. *)
Theorem X16_symmetric_flight (s : t) (dt de da dr : Q) :
  controls s !! "delta_t" = Some dt ->
  controls s !! "delta_elevator" = Some de ->
  controls s !! "delta_aileron" = Some da ->
  controls s !! "delta_rudder" = Some dr ->
  ~ TAS s == 0 ->
  beta s == 0 -> p s == 0 -> r s == 0 -> da == 0 -> dr == 0 ->
  exists s' Fx Fy Fz l m n cn,
    calculate_forces_and_moments s = (s', inr ((Fx, Fy, Fz), (l, m, n)))
    /\ CY s' == 0 /\ Cl s' == 0 /\ CN s' = Some cn /\ cn == 0
    /\ Fy == snd (fst (gravity_force s)) /\ l == 0 /\ n == 0.
Proof.
  intros Hdt Hde Hda Hdr HV Hb Hp Hr Ha Hrud.
  apply rad2deg_zero in Ha.
  pose proof (CN_surface_zero_row (rad2deg da) (rad2deg (alpha s)) Ha)
    as HN.
  assert (HL : interp (rad2deg da) delta_aile_data Cl_delta_aile_data = 0).
  { apply interp_node with (i := 4%nat) (xi := 0); try reflexivity;
      [exact delta_aile_data_increasing|exact Ha]. }
  unfold Spec.CN_delta_aile_surface in HN.
  rewrite (calc_returns s dt de da dr Hdt Hde Hda Hdr HV).
  destruct (gravity_force s) as [[g1 g2] g3] eqn:Hg.
  do 8 eexists.
  split; [outcome; rewrite Hg; cbv [vadd vscale]; reflexivity|].
  split; [outcome; rewrite Hb, Hp, Hr, Hrud; ring|].
  split; [outcome; rewrite HL, Hb, Hp, Hr, Hrud; ring|].
  split; [reflexivity|].
  split; [outcome; rewrite HN, Hb, Hp, Hr, Hrud; ring|].
  split; [outcome; cbn [fst snd]; rewrite Hb, Hp, Hr, Hrud; ring|].
  split; [outcome; rewrite HL, Hb, Hp, Hr, Hrud; ring|].
  outcome. rewrite HN, Hb, Hp, Hr, Hrud. ring.
Qed.

Lemma X16_witness :
  exists s' Fx Fy Fz l m n,
    calculate_forces_and_moments Cases.symmetric
    = (s', inr ((Fx, Fy, Fz), (l, m, n)))
    /\ CY s' == 0 /\ Fy == 0 /\ l == 0 /\ n == 0.
Proof.
  assert (HV : ~ TAS Cases.symmetric == 0) by (intros E; discriminate E).
  destruct (X16_symmetric_flight Cases.symmetric 0.7 (-0.05) 0 0
              eq_refl eq_refl eq_refl eq_refl HV
              (Qeq_refl 0) (Qeq_refl 0) (Qeq_refl 0) (Qeq_refl 0)
              (Qeq_refl 0))
    as (s' & Fx & Fy & Fz & l & m & n & cn & Hrun & HCY & _ & _ & _ & HFy
        & Hl & Hn).
  exists s', Fx, Fy, Fz, l, m, n. repeat split; assumption.
Defined.

(** ** The controls *)

(** X17.  A newly constructed aircraft holds no throttle: whatever state
    the caller assigns, with the controls as the constructor made them
    the evaluation raises [KeyError] on ["delta_t"] and assigns nothing. *)
Theorem X17_new_aircraft_needs_throttle (ft2m lbs2kg slugft2_2_kgm2 : Q)
    (i : inputs) :
  let new := __init__ ft2m lbs2kg slugft2_2_kgm2 in
  in_controls i = controls new ->
  calculate_forces_and_moments (set_inputs i new)
  = (set_inputs i new, inl (KeyError "delta_t")).
Proof.
  intros new Hc. apply evaluation_needs_throttle.
  fields. rewrite Hc. exact (fresh_has_no_throttle ft2m lbs2kg slugft2_2_kgm2).
Qed.

Lemma X17_witness :
  calculate_forces_and_moments (set_inputs Cases.first_call Scenario.fresh)
  = (set_inputs Cases.first_call Scenario.fresh, inl (KeyError "delta_t")).
Proof.
  apply (X17_new_aircraft_needs_throttle 0.3048 0.453592 1.3558179
           Cases.first_call).
  reflexivity.
Defined.

Lemma elevator_lookup_beyond (fp : list Q) (x x' : Q) :
  length delta_elev_data = length fp ->
  (28 < x /\ 28 < x') \/ (x < -26 /\ x' < -26) ->
  interp x delta_elev_data fp = interp x' delta_elev_data fp.
Proof.
  intros Hlen H.
  apply (interp_beyond delta_elev_data fp x x' (-26) 28); auto.
  exact delta_elev_data_increasing.
Qed.

Lemma aileron_lookup_beyond (fp : list Q) (x x' : Q) :
  length delta_aile_data = length fp ->
  (20 < x /\ 20 < x') \/ (x < -15 /\ x' < -15) ->
  interp x delta_aile_data fp = interp x' delta_aile_data fp.
Proof.
  intros Hlen H.
  apply (interp_beyond delta_aile_data fp x x' (-15) 20); auto.
  exact delta_aile_data_increasing.
Qed.

Lemma CD_surface_beyond_elevator (x x' v : Q) :
  (28 < x /\ 28 < x') \/ (x < -26 /\ x' < -26) ->
  bispev (RectBivariateSpline delta_elev_data alpha_data CD_delta_elev_data)
    x v
  = bispev (RectBivariateSpline delta_elev_data alpha_data CD_delta_elev_data)
      x' v.
Proof.
  intros H. change (RectBivariateSpline delta_elev_data alpha_data
                      CD_delta_elev_data) with Spec.CD_delta_elev_surface.
  rewrite (CD_surface_at_clamp x v), (CD_surface_at_clamp x' v).
  rewrite (clamp_beyond (-26) 28 x x'); [reflexivity| |exact H].
  intros E; discriminate E.
Qed.

Lemma CN_surface_beyond_aileron (x x' v : Q) :
  (20 < x /\ 20 < x') \/ (x < -15 /\ x' < -15) ->
  bispev (RectBivariateSpline delta_aile_data alpha_data CN_delta_aile_data)
    x v
  = bispev (RectBivariateSpline delta_aile_data alpha_data CN_delta_aile_data)
      x' v.
Proof.
  intros H. change (RectBivariateSpline delta_aile_data alpha_data
                      CN_delta_aile_data) with Spec.CN_delta_aile_surface.
  rewrite (CN_surface_at_clamp x v), (CN_surface_at_clamp x' v).
  rewrite (clamp_beyond (-15) 20 x x'); [reflexivity| |exact H].
  intros E; discriminate E.
Qed.

Ltac other_controls :=
  rewrite ?lookup_insert_eq;
  repeat (rewrite lookup_insert_ne by discriminate).

(** X18.  The elevator saturates at the ends of its table: two
    evaluations whose inputs differ in the elevator deflection only, both
    above 28 degrees or both below -26 degrees, end alike, with the same
    forces and moments when they return. *)
Theorem X18_saturated_elevator (s : t) (i : inputs) (d1 d2 : Q) :
  (28 < rad2deg d1 /\ 28 < rad2deg d2)
  \/ (rad2deg d1 < -26 /\ rad2deg d2 < -26) ->
  snd (calculate_forces_and_moments
         (set_inputs (Paths.with_control "delta_elevator" d1 i) s))
  = snd (calculate_forces_and_moments
           (set_inputs (Paths.with_control "delta_elevator" d2 i) s)).
Proof.
  intros Hside.
  rewrite !calc_verdict. unfold Paths.verdict, Paths.with_control. fields.
  cbn [in_TAS in_q_inf in_p in_q in_r in_alpha in_beta in_alpha_dot
       in_controls in_gravity_force].
  other_controls.
  destruct (in_controls i !! "delta_t") as [dt|]; [|exact eq_refl].
  cbv zeta.
  destruct (Qeq_bool (2 * in_TAS i) 0); [exact eq_refl|].
  destruct (in_controls i !! "delta_aileron") as [da|]; [|exact eq_refl].
  destruct (in_controls i !! "delta_rudder") as [dr|]; [|exact eq_refl].
  cbn [snd]. outcome.
  cbn [in_TAS in_q_inf in_p in_q in_r in_alpha in_beta in_alpha_dot
       in_controls in_gravity_force].
  rewrite (CD_surface_beyond_elevator _ _ _ Hside).
  rewrite (elevator_lookup_beyond CL_delta_elev_data _ _ eq_refl Hside).
  rewrite (elevator_lookup_beyond CM_delta_elev_data _ _ eq_refl Hside).
  exact eq_refl.
Qed.

Lemma X18_witness :
  snd (calculate_forces_and_moments
         (set_inputs
            (Paths.with_control "delta_elevator" 0.5 Scenario.cruise_inputs)
            Scenario.fresh))
  = snd (calculate_forces_and_moments
           (set_inputs
              (Paths.with_control "delta_elevator" 0.6
                 Scenario.cruise_inputs)
              Scenario.fresh)).
Proof.
  apply (X18_saturated_elevator Scenario.fresh Scenario.cruise_inputs
           0.5 0.6).
  left. split; reflexivity.
Defined.

(** X19.  The aileron saturates at the ends of its table: two
    evaluations whose inputs differ in the aileron deflection only, both
    above 20 degrees or both below -15 degrees, end alike, with the same
    forces and moments when they return. *)
Theorem X19_saturated_aileron (s : t) (i : inputs) (d1 d2 : Q) :
  (20 < rad2deg d1 /\ 20 < rad2deg d2)
  \/ (rad2deg d1 < -15 /\ rad2deg d2 < -15) ->
  snd (calculate_forces_and_moments
         (set_inputs (Paths.with_control "delta_aileron" d1 i) s))
  = snd (calculate_forces_and_moments
           (set_inputs (Paths.with_control "delta_aileron" d2 i) s)).
Proof.
  intros Hside.
  rewrite !calc_verdict. unfold Paths.verdict, Paths.with_control. fields.
  cbn [in_TAS in_q_inf in_p in_q in_r in_alpha in_beta in_alpha_dot
       in_controls in_gravity_force].
  other_controls.
  destruct (in_controls i !! "delta_t") as [dt|]; [|exact eq_refl].
  cbv zeta.
  destruct (in_controls i !! "delta_elevator") as [de|]; [|exact eq_refl].
  destruct (Qeq_bool (2 * in_TAS i) 0); [exact eq_refl|].
  destruct (in_controls i !! "delta_rudder") as [dr|]; [|exact eq_refl].
  cbn [snd]. outcome.
  cbn [in_TAS in_q_inf in_p in_q in_r in_alpha in_beta in_alpha_dot
       in_controls in_gravity_force].
  rewrite (CN_surface_beyond_aileron _ _ _ Hside).
  rewrite (aileron_lookup_beyond Cl_delta_aile_data _ _ eq_refl Hside).
  exact eq_refl.
Qed.

Lemma X19_witness :
  snd (calculate_forces_and_moments
         (set_inputs
            (Paths.with_control "delta_aileron" (-0.3) Scenario.cruise_inputs)
            Scenario.fresh))
  = snd (calculate_forces_and_moments
           (set_inputs
              (Paths.with_control "delta_aileron" (-0.4)
                 Scenario.cruise_inputs)
              Scenario.fresh)).
Proof.
  apply (X19_saturated_aileron Scenario.fresh Scenario.cruise_inputs
           (-0.3) (-0.4)).
  right. split; reflexivity.
Defined.
